(** * YouTube video AI agent: a shallow embedding of [app.py]

    The script extracts a video identifier from a URL, fetches the
    captions of the video from a transcript service, and forwards them
    with a fixed prompt to a hosted language model.  This development
    embeds the four functions of the script and the top-level Streamlit
    flow, and proves the properties of the specification about them.

    Python [str] values are modelled as [string] (sequences of bytes in
    UTF-8).  Every separator and marker the script searches for is
    ASCII, and UTF-8 never reuses an ASCII byte inside a multi-byte
    code point, so searching and splitting bytes agrees with searching
    and splitting code points. *)

From Stdlib Require Import String Ascii ZArith Lia Bool.
From stdpp Require Import base option list gmap strings.

Open Scope string_scope.

(* [++] on strings unfolds on a constructor, as it does on lists. *)
#[global] Arguments String.append !s1 s2 : simpl nomatch.

(** ** Python results: a value or a raised exception *)

Module Py.

(** The exception classes the script can meet.  [ServiceError] stands
    for any [Exception] subclass raised inside an external library
    (captions disabled, video unavailable, connection errors, API
    errors ...); [BaseExc] for the classes that derive from
    [BaseException] only ([KeyboardInterrupt], [SystemExit]). *)
Inductive exn : Type :=
| IndexError
| KeyError (key : string)
| TypeError
| ValueError
| ServiceError (cls msg : string)
| BaseExc (cls : string).

(** [isinstance(e, Exception)] *)
Definition is_Exception (e : exn) : bool :=
  match e with
  | BaseExc _ => false
  | _ => true
  end.

Inductive result (A : Type) : Type :=
| Ok (a : A)
| Raise (e : exn).
Arguments Ok {A} a.
Arguments Raise {A} e.

Definition rbind {A B} (r : result A) (k : A -> result B) : result B :=
  match r with
  | Ok a => k a
  | Raise e => Raise e
  end.

(** Python truthiness of a [str]: the empty string is falsy. *)
Definition truthy (s : string) : bool :=
  match s with
  | EmptyString => false
  | String _ _ => true
  end.

End Py.

Import Py.

Declare Scope py_scope.
Delimit Scope py_scope with py.
Notation "x <- r ;; k" := (rbind r (fun x => k))
  (at level 100, r at next level, right associativity) : py_scope.

(** ** The [str] and [list] operations the script uses *)

Module PyStr.

(** [s[n:]] *)
Fixpoint drop_str (n : nat) (s : string) : string :=
  match n, s with
  | O, _ => s
  | S _, EmptyString => EmptyString
  | S n', String _ s' => drop_str n' s'
  end.

(** [sub in s] *)
Fixpoint contains (sub s : string) : bool :=
  String.prefix sub s ||
  match s with
  | EmptyString => false
  | String _ s' => contains sub s'
  end.

(** [s.partition(sep)] without the separator: the text before and the
    text after the leftmost occurrence of [sep], or [None] when [sep]
    does not occur. *)
Fixpoint cut (sep s : string) : option (string * string) :=
  if String.prefix sep s then Some (EmptyString, drop_str (String.length sep) s)
  else match s with
       | EmptyString => None
       | String c s' =>
           match cut sep s' with
           | Some (a, b) => Some (String c a, b)
           | None => None
           end
       end.

(** The pieces of [s] around the non-overlapping occurrences of a
    non-empty [sep], scanning from the left.  Each occurrence consumes
    at least one character, so [fuel] above the length of [s] is never
    exhausted. *)
Fixpoint split_fuel (fuel : nat) (sep s : string) : list string :=
  match fuel with
  | O => [s]
  | S fuel' =>
      match cut sep s with
      | None => [s]
      | Some (a, b) => a :: split_fuel fuel' sep b
      end
  end.

(** [s.split(sep)]; an empty separator raises [ValueError]. *)
Definition split (s sep : string) : result (list string) :=
  match sep with
  | EmptyString => Raise ValueError
  | String _ _ => Ok (split_fuel (S (String.length s)) sep s)
  end.

(** [l[i]] with Python's negative indices; out of range raises
    [IndexError]. *)
Definition getitem {A} (l : list A) (i : Z) : result A :=
  let n := Z.of_nat (List.length l) in
  let j := if (i <? 0)%Z then (i + n)%Z else i in
  if ((0 <=? j)%Z && (j <? n)%Z)%bool
  then match l !! Z.to_nat j with
       | Some x => Ok x
       | None => Raise IndexError
       end
  else Raise IndexError.

(** [sep.join(l)] for a list of [str] *)
Fixpoint join (sep : string) (l : list string) : string :=
  match l with
  | [] => EmptyString
  | [x] => x
  | x :: l' => x ++ sep ++ join sep l'
  end.

End PyStr.

Import PyStr.

(** ** [extract_video_id] *)

Definition extract_video_id (url : string) : result (option string) :=
  (if contains "v=" url then
     parts <- split url "v=" ;;
     tail <- getitem parts 1 ;;
     fields <- split tail "&" ;;
     vid <- getitem fields 0 ;;
     Ok (Some vid)
   else if contains "youtu.be" url then
     segments <- split url "/" ;;
     last <- getitem segments (-1) ;;
     fields <- split last "?" ;;
     vid <- getitem fields 0 ;;
     Ok (Some vid)
   else Ok None)%py.

(** ** Values and dictionaries handed over by the external libraries *)

(** A value stored in a caption fragment: the caption text is a [str],
    the start time and the duration are floats (mantissa and binary
    exponent).  The script only ever reads the text. *)
Inductive pyval : Type :=
| PStr (s : string)
| PFloat (mantissa exponent : Z).

(** A caption fragment is a Python [dict] with string keys. *)
Abbreviation fragment := (gmap string pyval).

(** [d[key]]: a missing key raises [KeyError]. *)
Definition dict_getitem {V} (d : gmap string V) (key : string) : result V :=
  match d !! key with
  | Some v => Ok v
  | None => Raise (KeyError key)
  end.

(** [[f(item) for item in l]]: stops at the first exception. *)
Fixpoint comprehension {A B} (f : A -> result B) (l : list A) : result (list B) :=
  match l with
  | [] => Ok []
  | item :: l' =>
      (y <- f item ;;
       ys <- comprehension f l' ;;
       Ok (y :: ys))%py
  end.

(** The items of [sep.join(l)] must all be [str]; anything else raises
    [TypeError]. *)
Fixpoint expect_strs (l : list pyval) : result (list string) :=
  match l with
  | [] => Ok []
  | PStr s :: l' => (ss <- expect_strs l' ;; Ok (s :: ss))%py
  | PFloat _ _ :: _ => Raise TypeError
  end.

Definition join_values (sep : string) (l : list pyval) : result string :=
  (ss <- expect_strs l ;; Ok (join sep ss))%py.

(** ** Prompt templates *)

Inductive piece : Type :=
| Lit (s : string)
| Slot (name : string).

(** Filling the slots of a template from the dictionary given to
    [invoke]; a slot without a value raises [KeyError]. *)
Fixpoint format_template (t : list piece) (vars : gmap string string) : result string :=
  match t with
  | [] => Ok EmptyString
  | Lit s :: t' => (r <- format_template t' vars ;; Ok (s ++ r))%py
  | Slot name :: t' =>
      (v <- dict_getitem vars name ;;
       r <- format_template t' vars ;;
       Ok (v ++ r))%py
  end.

Definition nl : string := String "010"%char EmptyString.
Definition dquote : string := String "034"%char EmptyString.
Definition indent : string := "        ".

Definition summary_template : list piece :=
  [ Lit (nl ++
         indent ++ "You are an expert video summarizer." ++ nl ++
         indent ++ "Read the following transcript from a YouTube video and provide a concise, structured summary." ++ nl ++
         indent ++ "Capture the main points, key takeaways, and any actionable advice." ++ nl ++
         indent ++ nl ++
         indent ++ "Transcript: ");
    Slot "text";
    Lit (nl ++ indent) ].

Definition fallback_phrase : string := "I couldn't find that in the video.".

Definition question_template : list piece :=
  [ Lit (nl ++
         indent ++ "Answer the user's question based ONLY on the following video transcript." ++ nl ++
         indent ++ "If the answer is not in the transcript, say " ++ dquote ++ fallback_phrase ++ dquote ++ nl ++
         indent ++ nl ++
         indent ++ "Transcript: ");
    Slot "text";
    Lit (nl ++
         indent ++ nl ++
         indent ++ "Question: ");
    Slot "question";
    Lit (nl ++ indent) ].

(** ** Effects: what the script renders and which services it calls *)

(** The arguments of [ChatGroq(...)]. *)
Record llm_config : Type := ChatGroq {
  temperature : Z;
  groq_api_key : string;
  model_name : string
}.

(** The Streamlit calls of the script, with their arguments. *)
Inductive widget : Type :=
| st_set_page_config (page_title layout : string)
| st_sidebar_header (body : string)
| st_sidebar_text_input (label type_ : string)
| st_title (body : string)
| st_markdown (body : string)
| st_text_input (label : string)
| st_video (data : string)
| st_spinner (text : string)
| st_tabs (tabs : list string)
| st_button (label : string)
| st_info (body : string)
| st_write (body : string)
| st_text_area (label value : string) (height : Z)
| st_error (body : string)
| st_warning (body : string).

Inductive event : Type :=
| Render (w : widget)
| TranscriptRequest (video_id : string)
| CompletionRequest (cfg : llm_config) (prompt : string).

(** A computation appends to the log of events and ends with a value or
    an exception. *)
Definition M (A : Type) : Type := list event -> result A * list event.

Definition ret {A} (a : A) : M A := fun log => (Ok a, log).

Definition bind {A B} (m : M A) (k : A -> M B) : M B :=
  fun log =>
    match m log with
    | (Ok a, log') => k a log'
    | (Raise e, log') => (Raise e, log')
    end.

Definition lift {A} (r : result A) : M A := fun log => (r, log).

Definition emit (ev : event) : M unit := fun log => (Ok tt, (log ++ [ev])%list).

Definition render (w : widget) : M unit := emit (Render w).

(** [try: body except Exception as e: handler(e)]: only instances of
    [Exception] are caught. *)
Definition try_except_Exception {A} (body : M A) (handler : exn -> M A) : M A :=
  fun log =>
    match body log with
    | (Ok a, log') => (Ok a, log')
    | (Raise e, log') =>
        if is_Exception e then handler e log' else (Raise e, log')
    end.

(** Running a computation from an empty log. *)
Definition run {A} (m : M A) : result A * list event := m [].

Declare Scope app_scope.
Delimit Scope app_scope with app.
Notation "x <- m ;; k" := (bind m (fun x => k))
  (at level 100, m at next level, right associativity) : app_scope.
Notation "m ;;; k" := (bind m (fun _ => k))
  (at level 100, right associativity) : app_scope.

(** ** The functions of the script *)

(** What the user has typed and clicked when the script runs. *)
Record inputs : Type := {
  typed_api_key : string;
  typed_video_url : string;
  clicked_generate : bool;
  typed_question : string
}.

(** [if x:] on a value that is a [str] or [None] lets only a non-empty
    string through. *)
Definition if_truthy (x : option string) : option string :=
  match x with
  | Some s => if truthy s then Some s else None
  | None => None
  end.

Section Script.

(** [YouTubeTranscriptApi.get_transcript]: the caption fragments of a
    video, or an exception. *)
Variable transcript_api : string -> result (list fragment).

(** The hosted completion service behind [ChatGroq]: the content of the
    response to a rendered prompt, or an exception. *)
Variable groq : llm_config -> string -> result string.

(** What [st.video] does with the link it is given: it returns, or it
    raises (Streamlit raises [MediaFileStorageError] for a link that is
    neither an http(s) nor a data URL and names no file). *)
Variable media : string -> result unit.

(** [st.video(data)]: the player is rendered when the link is
    accepted. *)
Definition show_video (data : string) : M unit :=
  fun log =>
    match media data with
    | Ok _ => (Ok tt, (log ++ [Render (st_video data)])%list)
    | Raise e => (Raise e, log)
    end.

Definition get_transcript (video_id : string) : M (option string) :=
  try_except_Exception
    (emit (TranscriptRequest video_id) ;;;
     transcript_list <- lift (transcript_api video_id) ;;
     texts <- lift (comprehension (fun item => dict_getitem item "text") transcript_list) ;;
     full_text <- lift (join_values " " texts) ;;
     ret (Some full_text))%app
    (fun e => ret None).

(** [(prompt | llm).invoke(vars).content] *)
Definition invoke (prompt : list piece) (llm : llm_config)
    (vars : gmap string string) : M string :=
  (rendered <- lift (format_template prompt vars) ;;
   emit (CompletionRequest llm rendered) ;;;
   lift (groq llm rendered))%app.

Definition generate_summary (text api_key : string) : M string :=
  let llm := ChatGroq 0 api_key "llama3-8b-8192" in
  let prompt := summary_template in
  invoke prompt llm {[ "text" := text ]}.

Definition ask_question (text question api_key : string) : M string :=
  let llm := ChatGroq 0 api_key "llama3-8b-8192" in
  let prompt := question_template in
  invoke prompt llm (<[ "text" := text ]> {[ "question" := question ]}).

(** The three tabs shown once a transcript is available. *)
Definition ready_view (inp : inputs) (transcript_text api_key : string) : M unit :=
  (render (st_tabs ["📝 Summary"; "💬 Chat with Video"; "📜 Full Transcript"]) ;;;
   render (st_button "Generate Summary") ;;;
   (if clicked_generate inp then
      render (st_spinner "Analyzing video content...") ;;;
      summary <- generate_summary transcript_text api_key ;;
      render (st_markdown summary)
    else ret tt) ;;;
   render (st_info "Ask any question about the video content!") ;;;
   render (st_text_input "Ask a question:") ;;;
   (let user_question := typed_question inp in
    if truthy user_question then
      render (st_spinner "Thinking...") ;;;
      answer <- ask_question transcript_text user_question api_key ;;
      render (st_write answer)
    else ret tt) ;;;
   render (st_text_area "Subtitles" transcript_text 300))%app.

(** One run of the script, top to bottom. *)
Definition script (inp : inputs) : M unit :=
  (render (st_set_page_config "YouTube AI Summarizer" "wide") ;;;
   render (st_sidebar_header "⚙️ Configuration") ;;;
   render (st_sidebar_text_input "groq_api_key" "password") ;;;
   let api_key := typed_api_key inp in
   render (st_title "📺 YouTube Video AI Agent") ;;;
   render (st_markdown "Summarize videos, read subtitles, and chat with content instantly.") ;;;
   render (st_text_input "Paste YouTube Video Link here:") ;;;
   let video_url := typed_video_url inp in
   if truthy video_url && truthy api_key then
     video_id <- lift (extract_video_id video_url) ;;
     match if_truthy video_id with
     | Some video_id =>
         show_video video_url ;;;
         render (st_spinner "Fetching transcript...") ;;;
         transcript_text <- get_transcript video_id ;;
         match if_truthy transcript_text with
         | Some transcript_text => ready_view inp transcript_text api_key
         | None =>
             render (st_error "Could not retrieve transcript. Note: This tool only works on videos that have Closed Captions/Subtitles enabled.")
         end
     | None => render (st_error "Invalid YouTube URL.")
     end
   else if negb (truthy api_key) then
     render (st_warning "⚠️ Please enter your Groq API Key in the sidebar to proceed.")
   else ret tt)%app.

End Script.

(** ** Notions used to state the properties *)

(** The pieces of [s.split(sep)] for a non-empty [sep]. *)
Definition pieces (sep s : string) : list string :=
  split_fuel (S (String.length s)) sep s.

(** The text of [s] up to the leftmost occurrence of [sep], or all of
    [s] when [sep] does not occur. *)
Definition before (sep s : string) : string :=
  match cut sep s with
  | Some (a, _) => a
  | None => s
  end.

(** No occurrence of [sep] in [s] starts to the left of position
    [String.length pre]. *)
Definition leftmost (sep pre s : string) : Prop :=
  forall a b, s = a ++ sep ++ b -> String.length pre <= String.length a.

(** [rest] is what follows a piece that was cut at a delimiter: it is
    empty (the piece ran to the end) or starts with the delimiter. *)
Definition stops_at (sep rest : string) : Prop :=
  rest = EmptyString \/ String.prefix sep rest = true.

(** The identifier as the specification words it for the first URL
    shape: the text between the first "v=" and the next "&", or the
    end of the string. *)
Definition text_from_marker_to_ampersand (url : string) : option string :=
  match cut "v=" url with
  | Some (_, post) => Some (before "&" post)
  | None => None
  end.

(** The requests to the two external services found in a log. *)
Definition is_request (ev : event) : bool :=
  match ev with
  | Render _ => false
  | TranscriptRequest _ => true
  | CompletionRequest _ _ => true
  end.

Definition requests (log : list event) : list event := filter is_request log.

(** What the script renders before it looks at its inputs. *)
Definition page_header : list event :=
  [ Render (st_set_page_config "YouTube AI Summarizer" "wide");
    Render (st_sidebar_header "⚙️ Configuration");
    Render (st_sidebar_text_input "groq_api_key" "password");
    Render (st_title "📺 YouTube Video AI Agent");
    Render (st_markdown "Summarize videos, read subtitles, and chat with content instantly.");
    Render (st_text_input "Paste YouTube Video Link here:") ].

Definition invalid_url_error : event :=
  Render (st_error "Invalid YouTube URL.").

Definition no_transcript_error : event :=
  Render (st_error "Could not retrieve transcript. Note: This tool only works on videos that have Closed Captions/Subtitles enabled.").

Definition missing_key_warning : event :=
  Render (st_warning "⚠️ Please enter your Groq API Key in the sidebar to proceed.").

(** The script has reached the three tabs. *)
Definition is_tabs (ev : event) : bool :=
  match ev with
  | Render (st_tabs _) => true
  | _ => false
  end.

Definition entered_ready (log : list event) : bool := existsb is_tabs log.

(** [seg] is the last "/"-separated segment of [url]. *)
Definition is_last_segment (seg url : string) : Prop :=
  contains "/" seg = false /\ (url = seg \/ exists pre, url = pre ++ "/" ++ seg).

(** [id] is [seg] without a trailing "?..." query. *)
Definition is_query_stripped (id seg : string) : Prop :=
  contains "?" id = false /\ exists rest, seg = id ++ rest /\ stops_at "?" rest.

(** The prompt that reaches the completion service: the template with
    its slots filled. *)
Definition summary_prompt (text : string) : string :=
  (nl ++
   indent ++ "You are an expert video summarizer." ++ nl ++
   indent ++ "Read the following transcript from a YouTube video and provide a concise, structured summary." ++ nl ++
   indent ++ "Capture the main points, key takeaways, and any actionable advice." ++ nl ++
   indent ++ nl ++
   indent ++ "Transcript: ") ++
  text ++
  (nl ++ indent).

Definition question_prompt (text question : string) : string :=
  (nl ++
   indent ++ "Answer the user's question based ONLY on the following video transcript." ++ nl ++
   indent ++ "If the answer is not in the transcript, say " ++ dquote ++ fallback_phrase ++ dquote ++ nl ++
   indent ++ nl ++
   indent ++ "Transcript: ") ++
  text ++
  (nl ++
   indent ++ nl ++
   indent ++ "Question: ") ++
  question ++
  (nl ++ indent).

(** The two instructions of the question prompt. *)
Definition only_transcript_instruction : string :=
  "Answer the user's question based ONLY on the following video transcript.".

Definition fallback_instruction : string :=
  "If the answer is not in the transcript, say " ++ dquote ++ fallback_phrase ++ dquote.

(** The model configuration both operations are written with. *)
Definition model_configuration (api_key : string) : llm_config :=
  {| temperature := 0; groq_api_key := api_key; model_name := "llama3-8b-8192" |}.

(** The transcript as the specification words it: the first text, and
    after it every further text in the order received, each preceded
    by one space. *)
Definition single_spaced (texts : list string) : string :=
  match texts with
  | [] => EmptyString
  | first :: others => fold_left (fun so_far t => so_far ++ " " ++ t) others first
  end.

(** Every fragment of [frags] has a text field, and [texts] are these
    fields in order. *)
Definition text_fields (frags : list fragment) (texts : list string) : Prop :=
  Forall2 (fun (item : fragment) (t : string) => item !! "text" = Some (PStr t)) frags texts.

(** ** Stand-ins for the two services, for concrete runs *)

(** A fragment as the transcript service returns it. *)
Definition caption (text : string) (start duration : Z) : fragment :=
  <[ "text" := PStr text ]>
    (<[ "start" := PFloat start 0 ]> {[ "duration" := PFloat duration 0 ]}).

Definition hello_world : list fragment :=
  [ caption "Hello" 0 2; caption "world" 2 3 ].

Definition transcript_returns (frags : list fragment) : string -> result (list fragment) :=
  fun _ => Ok frags.

Definition transcript_fails (e : exn) : string -> result (list fragment) :=
  fun _ => Raise e.

Definition completion_returns (content : string) : llm_config -> string -> result string :=
  fun _ _ => Ok content.

Definition completion_fails (e : exn) : llm_config -> string -> result string :=
  fun _ _ => Raise e.

(** A player that accepts http(s) and data links and nothing else. *)
Definition media_http_only (data : string) : result unit :=
  if String.prefix "http://" data || String.prefix "https://" data
     || String.prefix "data:" data
  then Ok tt
  else Raise (ServiceError "MediaFileStorageError" "Error opening media file").

(** A completion service that fails on one prompt only. *)
Definition completion_fails_on (bad : string) (e : exn) (content : string)
  : llm_config -> string -> result string :=
  fun _ prompt => if String.eqb prompt bad then Raise e else Ok content.

Definition typed (api_key video_url : string) (click : bool) (question : string) : inputs :=
  {| typed_api_key := api_key; typed_video_url := video_url;
     clicked_generate := click; typed_question := question |}.

(** The literal text between the transcript and the question in the
    question prompt. *)
Definition question_separator : string :=
  nl ++ indent ++ nl ++ indent ++ "Question: ".

(** The texts whose join is the empty string: no text, or one empty
    text. *)
Definition texts_blank (texts : list string) : bool :=
  match texts with
  | [] => true
  | [t] => negb (truthy t)
  | _ :: _ :: _ => false
  end.

(** A fragment that lacks its text. *)
Definition caption_without_text (start duration : Z) : fragment :=
  <[ "start" := PFloat start 0 ]> {[ "duration" := PFloat duration 0 ]}.

(** What the script renders between its header and the transcript
    request, once the URL has given an identifier. *)
Definition fetching_events (video_url video_id : string) : list event :=
  [ Render (st_video video_url);
    Render (st_spinner "Fetching transcript...");
    TranscriptRequest video_id ].

(** The widgets of the three tabs. *)
Definition tabs_opened : list event :=
  [ Render (st_tabs ["📝 Summary"; "💬 Chat with Video"; "📜 Full Transcript"]);
    Render (st_button "Generate Summary") ].

Definition question_asked : list event :=
  [ Render (st_info "Ask any question about the video content!");
    Render (st_text_input "Ask a question:") ].

Definition transcript_shown (transcript_text : string) : event :=
  Render (st_text_area "Subtitles" transcript_text 300).

(** The fragment has a text, and the text is a [str]. *)
Definition has_text (item : fragment) : bool :=
  match item !! "text" with
  | Some (PStr _) => true
  | _ => false
  end.

(** ** Proof steps used throughout *)

(* Two different character literals. *)
Ltac chars_differ := let H := fresh in intros H; discriminate H.

(* One statement of a [result] computation has returned. *)
Ltac returned :=
  match goal with
  | |- context [rbind (Ok ?a) ?k] => change (rbind (Ok a) k) with (k a); cbv beta
  end.

(* [H] says that an event is in a list written out in full: go through
   the list. *)
Ltac walk_events H :=
  simpl in H; repeat (destruct H as [H|H]; try discriminate H); try contradiction.

(** ** Basic facts about strings *)

Module StrFacts.

Lemma append_nil_r (s : string) : s ++ "" = s.
Proof. induction s as [|c s IH]; simpl; congruence. Qed.

Lemma append_assoc (a b c : string) : (a ++ b) ++ c = a ++ b ++ c.
Proof. induction a as [|x a IH]; simpl; congruence. Qed.

Lemma length_append (a b : string) :
  String.length (a ++ b) = String.length a + String.length b.
Proof. induction a as [|x a IH]; simpl; congruence. Qed.

Lemma prefix_nil (s : string) : String.prefix "" s = true.
Proof. destruct s; reflexivity. Qed.

Lemma prefix_cons (c d : ascii) (p s : string) :
  String.prefix (String c p) (String d s) = true <-> c = d /\ String.prefix p s = true.
Proof.
  simpl. destruct (ascii_dec c d) as [->|Hne]; split; intros H.
  - split; [reflexivity | exact H].
  - apply H.
  - discriminate.
  - destruct H as [Heq _]. contradiction.
Qed.

Lemma prefix_app (p r : string) : String.prefix p (p ++ r) = true.
Proof.
  induction p as [|c p IH].
  - apply prefix_nil.
  - simpl. destruct (ascii_dec c c); [exact IH | congruence].
Qed.

Lemma prefix_drop (p s : string) :
  String.prefix p s = true -> s = p ++ drop_str (String.length p) s.
Proof.
  revert s. induction p as [|c p IH]; intros s H.
  - reflexivity.
  - destruct s as [|d s]; [discriminate H |].
    apply prefix_cons in H as [-> H]. simpl. f_equal. now apply IH.
Qed.

Lemma prefix_iff (p s : string) :
  String.prefix p s = true <-> exists r, s = p ++ r.
Proof.
  split.
  - intros H. eexists. now apply prefix_drop.
  - intros [r ->]. apply prefix_app.
Qed.

Lemma drop_app (p r : string) : drop_str (String.length p) (p ++ r) = r.
Proof. induction p as [|c p IH]; simpl; [reflexivity | exact IH]. Qed.

Lemma contains_nil (sub : string) : contains sub "" = String.prefix sub "".
Proof. unfold contains. apply orb_false_r. Qed.

Lemma contains_cons (sub : string) (c : ascii) (s : string) :
  contains sub (String c s) = String.prefix sub (String c s) || contains sub s.
Proof. reflexivity. Qed.

Lemma contains_iff (sub s : string) :
  contains sub s = true <-> exists a b, s = a ++ sub ++ b.
Proof.
  split.
  - induction s as [|c s IH]; intros H.
    + rewrite contains_nil in H. apply prefix_iff in H as [r Hr].
      exists "", r. exact Hr.
    + rewrite contains_cons in H. apply orb_true_iff in H as [H|H].
      * apply prefix_iff in H as [r Hr]. exists "", r. exact Hr.
      * destruct (IH H) as (a & b & ->). now exists (String c a), b.
  - intros (a & b & ->). induction a as [|c a IH].
    + change ("" ++ sub ++ b) with (sub ++ b).
      destruct (sub ++ b) eqn:E.
      * rewrite contains_nil, <- E. apply prefix_app.
      * rewrite contains_cons, <- E, prefix_app. reflexivity.
    + change (String c a ++ sub ++ b) with (String c (a ++ sub ++ b)).
      rewrite contains_cons, IH. apply orb_true_r.
Qed.

Lemma contains_false_app_l (sub a b : string) :
  contains sub (a ++ b) = false -> contains sub a = false.
Proof.
  intros H. destruct (contains sub a) eqn:E; [|reflexivity].
  apply contains_iff in E as (x & y & ->).
  rewrite <- H. symmetry. apply contains_iff.
  exists x, (y ++ b). now rewrite !append_assoc.
Qed.

Lemma append_split (a u x v : string) :
  a ++ u = x ++ v -> String.length x <= String.length a ->
  exists z, a = x ++ z /\ v = z ++ u.
Proof.
  revert a. induction x as [|c x IH]; intros a H Hlen.
  - exists a. split; [reflexivity | symmetry; exact H].
  - destruct a as [|d a]; [simpl in Hlen; lia |].
    simpl in H, Hlen. injection H as -> H.
    destruct (IH a H ltac:(lia)) as (z & -> & ->).
    now exists z.
Qed.

Lemma append_inv_length (a u x v : string) :
  a ++ u = x ++ v -> String.length a = String.length x -> a = x /\ u = v.
Proof.
  intros H Hlen.
  destruct (append_split a u x v H ltac:(lia)) as (z & Ha & Hv).
  assert (z = "") as ->.
  { rewrite Ha, length_append in Hlen. destruct z; [reflexivity | simpl in Hlen; lia]. }
  rewrite append_nil_r in Ha. now subst.
Qed.

(** *** [cut] *)

Lemma cut_nil (sep : string) :
  cut sep "" =
  if String.prefix sep "" then Some ("", drop_str (String.length sep) "") else None.
Proof. reflexivity. Qed.

Lemma cut_cons (sep : string) (c : ascii) (s : string) :
  cut sep (String c s) =
  if String.prefix sep (String c s)
  then Some ("", drop_str (String.length sep) (String c s))
  else match cut sep s with
       | Some (a, b) => Some (String c a, b)
       | None => None
       end.
Proof. reflexivity. Qed.

Lemma contains_cut (sep s : string) :
  contains sep s = match cut sep s with Some _ => true | None => false end.
Proof.
  induction s as [|c s IH].
  - rewrite contains_nil, cut_nil. now destruct (String.prefix sep "").
  - rewrite contains_cons, cut_cons, IH.
    destruct (String.prefix sep (String c s)); [reflexivity |].
    now destruct (cut sep s) as [[a b]|].
Qed.

Lemma cut_None (sep s : string) : cut sep s = None <-> contains sep s = false.
Proof. rewrite contains_cut. destruct (cut sep s); split; congruence. Qed.

Lemma cut_Some (sep s a b : string) :
  cut sep s = Some (a, b) -> s = a ++ sep ++ b /\ leftmost sep a s.
Proof.
  revert a. induction s as [|c s IH]; intros a H.
  - rewrite cut_nil in H. destruct (String.prefix sep "") eqn:E; [|discriminate].
    injection H as <- <-. split.
    + now apply prefix_drop.
    + intros x y _. simpl. lia.
  - rewrite cut_cons in H. destruct (String.prefix sep (String c s)) eqn:E.
    + injection H as <- <-. split.
      * now apply prefix_drop.
      * intros x y _. simpl. lia.
    + destruct (cut sep s) as [[a' b']|] eqn:Hc; [|discriminate].
      injection H as <- <-. destruct (IH a' eq_refl) as [-> Hleft]. split.
      * reflexivity.
      * intros x y Hxy. destruct x as [|d x].
        -- simpl in Hxy. rewrite Hxy, prefix_app in E. discriminate.
        -- simpl in Hxy. injection Hxy as _ Hxy. simpl.
           specialize (Hleft x y Hxy). lia.
Qed.

Lemma cut_length (sep s a b : string) :
  cut sep s = Some (a, b) ->
  String.length s = String.length a + String.length sep + String.length b.
Proof.
  intros H. apply cut_Some in H as [-> _]. rewrite !length_append. lia.
Qed.

Lemma cut_leftmost (sep a b : string) :
  leftmost sep a (a ++ sep ++ b) -> cut sep (a ++ sep ++ b) = Some (a, b).
Proof.
  intros Hleft.
  destruct (cut sep (a ++ sep ++ b)) as [[a' b']|] eqn:Hc.
  - destruct (cut_Some _ _ _ _ Hc) as [Heq Hleft'].
    assert (String.length a = String.length a') as Hlen.
    { specialize (Hleft a' b' Heq). specialize (Hleft' a b eq_refl). lia. }
    destruct (append_inv_length _ _ _ _ Heq Hlen) as [-> Hb].
    apply (inj (String.append sep)) in Hb. now subst.
  - apply cut_None in Hc.
    assert (contains sep (a ++ sep ++ b) = true) by (apply contains_iff; eauto).
    congruence.
Qed.

(** A one-character separator cannot straddle the end of [a]. *)
Lemma leftmost_char (c : ascii) (a b : string) :
  contains (String c "") a = false -> leftmost (String c "") a (a ++ String c "" ++ b).
Proof.
  intros Hno x y Hxy.
  destruct (Nat.le_gt_cases (String.length a) (String.length x)) as [|Hlt]; [assumption |].
  destruct (append_split a _ x _ Hxy ltac:(lia)) as (z & Ha & Hz).
  destruct z as [|d z].
  - rewrite Ha, append_nil_r in Hlt. lia.
  - simpl in Hz. injection Hz as <- _.
    rewrite Ha in Hno.
    assert (contains (String c "") (x ++ String c "" ++ z) = true) by (apply contains_iff; eauto).
    simpl in *. congruence.
Qed.

(** Neither can the marker "v=", whose two characters differ. *)
Lemma leftmost_marker (a b : string) :
  contains "v=" a = false -> leftmost "v=" a (a ++ "v=" ++ b).
Proof.
  intros Hno x y Hxy.
  destruct (Nat.le_gt_cases (String.length a) (String.length x)) as [|Hlt]; [assumption |].
  destruct (append_split a _ x _ Hxy ltac:(lia)) as (z & Ha & Hz).
  destruct z as [|d z].
  - rewrite Ha, append_nil_r in Hlt. lia.
  - simpl in Hz. injection Hz as <- Hz.
    destruct z as [|e z]; simpl in Hz; [discriminate Hz |].
    injection Hz as <- _.
    rewrite Ha in Hno.
    assert (contains "v=" (x ++ "v=" ++ z) = true) by (apply contains_iff; eauto).
    simpl in *. congruence.
Qed.

(** *** [before] *)

Lemma before_nil (sep : string) : before sep "" = "".
Proof. unfold before. rewrite cut_nil. now destruct (String.prefix sep ""). Qed.

Lemma before_cons (sep : string) (c : ascii) (s : string) :
  before sep (String c s) =
  if String.prefix sep (String c s) then "" else String c (before sep s).
Proof.
  unfold before. rewrite cut_cons.
  destruct (String.prefix sep (String c s)); [reflexivity |].
  now destruct (cut sep s) as [[a b]|].
Qed.

Lemma before_rest (sep s : string) :
  exists rest, s = before sep s ++ rest /\ stops_at sep rest.
Proof.
  unfold before. destruct (cut sep s) as [[a b]|] eqn:Hc.
  - apply cut_Some in Hc as [-> _]. exists (sep ++ b). split; [reflexivity |].
    right. apply prefix_app.
  - exists "". split; [now rewrite append_nil_r | now left].
Qed.

Lemma before_all (sep s : string) : contains sep s = false -> before sep s = s.
Proof. intros H. apply cut_None in H. unfold before. now rewrite H. Qed.

Lemma contains_before (sep s : string) :
  sep <> "" -> contains sep (before sep s) = false.
Proof.
  intros Hsep. unfold before. destruct (cut sep s) as [[a b]|] eqn:Hc.
  - destruct (contains sep a) eqn:E; [|reflexivity].
    apply contains_iff in E as (x & y & ->).
    apply cut_Some in Hc as [Heq Hleft].
    assert (s = x ++ sep ++ y ++ sep ++ b) as Heq'
      by (now rewrite Heq, !append_assoc).
    specialize (Hleft x (y ++ sep ++ b) Heq').
    rewrite !length_append in Hleft.
    destruct sep; [congruence | simpl in Hleft; lia].
  - now apply cut_None.
Qed.

Lemma before_char_app (c : ascii) (a b : string) :
  contains (String c "") a = false -> before (String c "") (a ++ String c "" ++ b) = a.
Proof.
  intros H. unfold before. now rewrite (cut_leftmost _ _ _ (leftmost_char c a b H)).
Qed.

Lemma prefix_head_ne (c d : ascii) (p s : string) :
  c <> d -> String.prefix (String c p) (String d s) = false.
Proof.
  intros Hne. destruct (String.prefix (String c p) (String d s)) eqn:E; [|reflexivity].
  apply prefix_cons in E as [? _]. contradiction.
Qed.

Lemma prefix_char (c : ascii) (s : string) :
  String.prefix (String c "") (String c s) = true.
Proof. apply (prefix_app (String c "")). Qed.

(** Cutting at "&" and cutting at "v=" can be done in either order. *)
Lemma prefix_marker_before_amp (s : string) :
  String.prefix "v=" (before "&" s) = String.prefix "v=" s.
Proof.
  apply eq_true_iff_eq. split; intros H.
  - apply prefix_iff in H as [t Ht].
    destruct (before_rest "&" s) as (rest & Hs & _).
    rewrite Hs, Ht, append_assoc. apply prefix_app.
  - apply prefix_iff in H as [t ->]. simpl.
    rewrite before_cons, (prefix_head_ne "&") by chars_differ.
    rewrite before_cons, (prefix_head_ne "&") by chars_differ.
    apply (prefix_app "v=").
Qed.

Lemma before_amp_marker (s : string) :
  before "&" (before "v=" s) = before "v=" (before "&" s).
Proof.
  induction s as [|c s IH]; [now rewrite !before_nil |].
  destruct (ascii_dec "&" c) as [<-|Hamp].
  - rewrite (before_cons "v="), (prefix_head_ne "v") by chars_differ.
    rewrite !(before_cons "&"), !prefix_char. now rewrite before_nil.
  - pose proof (prefix_marker_before_amp (String c s)) as P.
    rewrite (before_cons "&"), (prefix_head_ne "&") in P by assumption.
    rewrite (before_cons "&" c s), (prefix_head_ne "&") by assumption.
    rewrite !(before_cons "v="), P.
    destruct (String.prefix "v=" (String c s)).
    + now rewrite before_nil.
    + rewrite before_cons, (prefix_head_ne "&") by assumption. now rewrite IH.
Qed.

(** *** [split] and indexing *)

Lemma split_fuel_enough (sep : string) (f1 f2 : nat) (s : string) :
  sep <> "" -> String.length s < f1 -> String.length s < f2 ->
  split_fuel f1 sep s = split_fuel f2 sep s.
Proof.
  intros Hsep. revert f2 s. induction f1 as [|f1 IH]; intros f2 s H1 H2; [lia |].
  destruct f2 as [|f2]; [lia |]. simpl.
  destruct (cut sep s) as [[a b]|] eqn:Hc; [|reflexivity].
  apply cut_length in Hc.
  assert (0 < String.length sep) by (destruct sep; [congruence | simpl; lia]).
  f_equal. apply IH; lia.
Qed.

Lemma pieces_unfold (sep s : string) :
  sep <> "" ->
  pieces sep s =
  match cut sep s with
  | None => [s]
  | Some (a, b) => a :: pieces sep b
  end.
Proof.
  intros Hsep. unfold pieces at 1. simpl.
  destruct (cut sep s) as [[a b]|] eqn:Hc; [|reflexivity].
  apply cut_length in Hc.
  assert (0 < String.length sep) by (destruct sep; [congruence | simpl; lia]).
  f_equal. apply split_fuel_enough; [assumption | lia | lia].
Qed.

Lemma split_pieces (s sep : string) : sep <> "" -> split s sep = Ok (pieces sep s).
Proof. intros H. destruct sep; [congruence | reflexivity]. Qed.

Lemma pieces_head (sep s : string) :
  sep <> "" -> exists tl, pieces sep s = before sep s :: tl.
Proof.
  intros Hsep. rewrite pieces_unfold by assumption. unfold before.
  destruct (cut sep s) as [[a b]|]; eauto.
Qed.

Lemma pieces_last (sep s : string) :
  sep <> "" ->
  exists l x, pieces sep s = (l ++ [x])%list /\ contains sep x = false /\
              (s = x \/ exists pre, s = pre ++ sep ++ x).
Proof.
  intros Hsep. remember (String.length s) as n eqn:Hn.
  revert s Hn. induction n as [n IH] using lt_wf_ind. intros s Hn.
  rewrite pieces_unfold by assumption.
  destruct (cut sep s) as [[a b]|] eqn:Hc.
  - pose proof (cut_length _ _ _ _ Hc) as Hlen.
    assert (0 < String.length sep) by (destruct sep; [congruence | simpl; lia]).
    destruct (IH (String.length b) ltac:(lia) b eq_refl) as (l & x & Hp & Hx & Hb).
    exists (a :: l), x. rewrite Hp. split; [reflexivity |]. split; [assumption |].
    right. apply cut_Some in Hc as [-> _]. destruct Hb as [->|[pre ->]].
    + now exists a.
    + exists (a ++ sep ++ pre). now rewrite !append_assoc.
  - exists [], s. split; [reflexivity |]. split; [now apply cut_None | now left].
Qed.

(** Joining the pieces with the separator gives the string back. *)
Lemma join_pieces (sep s : string) : sep <> "" -> join sep (pieces sep s) = s.
Proof.
  intros Hsep. remember (String.length s) as n eqn:Hn.
  revert s Hn. induction n as [n IH] using lt_wf_ind. intros s Hn.
  rewrite pieces_unfold by assumption.
  destruct (cut sep s) as [[a b]|] eqn:Hc; [|reflexivity].
  pose proof (cut_length _ _ _ _ Hc) as Hlen.
  assert (0 < String.length sep) by (destruct sep; [congruence | simpl; lia]).
  pose proof (IH (String.length b) ltac:(lia) b eq_refl) as Hb.
  destruct (pieces_head sep b Hsep) as [tl Htl]. rewrite Htl in Hb |- *.
  apply cut_Some in Hc as [-> _].
  change (join sep (a :: before sep b :: tl))
    with (a ++ sep ++ join sep (before sep b :: tl)).
  now rewrite Hb.
Qed.

Lemma getitem_nat {A} (l : list A) (n : nat) (x : A) :
  l !! n = Some x -> getitem l (Z.of_nat n) = Ok x.
Proof.
  intros H. pose proof (lookup_lt_Some _ _ _ H) as Hlt. unfold getitem.
  destruct (Z.ltb_spec (Z.of_nat n) 0); [lia |].
  destruct (Z.leb_spec 0 (Z.of_nat n)); [|lia].
  destruct (Z.ltb_spec (Z.of_nat n) (Z.of_nat (List.length l))); [|lia].
  simpl. now rewrite Nat2Z.id, H.
Qed.

Lemma getitem_first {A} (x : A) (l : list A) : getitem (x :: l) 0 = Ok x.
Proof. now apply (getitem_nat _ 0). Qed.

Lemma getitem_second {A} (x y : A) (l : list A) : getitem (x :: y :: l) 1 = Ok y.
Proof. now apply (getitem_nat _ 1). Qed.

Lemma getitem_last {A} (l : list A) (x : A) : getitem (l ++ [x])%list (-1) = Ok x.
Proof.
  unfold getitem. rewrite length_app. simpl List.length.
  change (-1 <? 0)%Z with true. cbv iota.
  replace (-1 + Z.of_nat (List.length l + 1))%Z with (Z.of_nat (List.length l)) by lia.
  destruct (Z.leb_spec 0 (Z.of_nat (List.length l))); [|lia].
  destruct (Z.ltb_spec (Z.of_nat (List.length l)) (Z.of_nat (List.length l + 1))); [|lia].
  simpl. now rewrite Nat2Z.id, list_lookup_middle.
Qed.

Lemma prefix_char_cons (c d : ascii) (s : string) :
  String.prefix (String c "") (String d s) = if ascii_dec c d then true else false.
Proof.
  destruct (ascii_dec c d) as [->|Hne]; [apply prefix_char | now apply prefix_head_ne].
Qed.

Lemma contains_char_app (c : ascii) (a b : string) :
  contains (String c "") (a ++ b) = contains (String c "") a || contains (String c "") b.
Proof.
  induction a as [|d a IH].
  - now rewrite contains_nil.
  - simpl append. rewrite !contains_cons, !prefix_char_cons, IH.
    now destruct (ascii_dec c d).
Qed.

(** The text after the last occurrence of a one-character separator is
    determined by the string. *)
Lemma after_last_char_unique (c : ascii) (p1 x1 p2 x2 : string) :
  p1 ++ String c "" ++ x1 = p2 ++ String c "" ++ x2 ->
  contains (String c "") x1 = false -> contains (String c "") x2 = false ->
  x1 = x2.
Proof.
  assert (forall p1 x1 p2 x2,
             String.length p2 <= String.length p1 ->
             p1 ++ String c "" ++ x1 = p2 ++ String c "" ++ x2 ->
             contains (String c "") x2 = false -> x1 = x2) as Hle.
  { clear. intros p1 x1 p2 x2 Hlen H H2.
    destruct (append_split _ _ _ _ H Hlen) as (z & -> & Hz).
    destruct z as [|d z].
    - simpl in Hz. now injection Hz as <-.
    - simpl in Hz. injection Hz as <- ->.
      rewrite contains_char_app, contains_cons, prefix_char in H2.
      simpl in H2. now rewrite orb_true_r in H2. }
  intros H H1 H2.
  destruct (Nat.le_ge_cases (String.length p2) (String.length p1)).
  - now apply (Hle p1 x1 p2 x2).
  - symmetry. now apply (Hle p2 x2 p1 x1).
Qed.

End StrFacts.

Import StrFacts.

(** ** The URL parser *)

Lemma marker_ne : "v=" <> "". Proof. discriminate. Qed.
Lemma amp_ne : "&" <> "". Proof. discriminate. Qed.
Lemma slash_ne : "/" <> "". Proof. discriminate. Qed.
Lemma qmark_ne : "?" <> "". Proof. discriminate. Qed.

(** The first branch, in terms of where the leftmost "v=" is. *)
Lemma extract_video_id_cut (url pre post : string) :
  cut "v=" url = Some (pre, post) ->
  extract_video_id url = Ok (Some (before "&" (before "v=" post))).
Proof.
  intros Hc. unfold extract_video_id.
  rewrite contains_cut, Hc.
  rewrite (split_pieces url "v=" marker_ne). returned.
  rewrite (pieces_unfold "v=" url marker_ne), Hc.
  destruct (pieces_head "v=" post marker_ne) as [tl ->].
  rewrite getitem_second. returned.
  rewrite (split_pieces _ "&" amp_ne). returned.
  destruct (pieces_head "&" (before "v=" post) amp_ne) as [tl' ->].
  now rewrite getitem_first.
Qed.

(** The second branch, in terms of the last piece around "/". *)
Lemma extract_video_id_last (url : string) (l : list string) (seg : string) :
  contains "v=" url = false -> contains "youtu.be" url = true ->
  pieces "/" url = (l ++ [seg])%list ->
  extract_video_id url = Ok (Some (before "?" seg)).
Proof.
  intros Hv Hy Hp. unfold extract_video_id. rewrite Hv, Hy.
  rewrite (split_pieces url "/" slash_ne). returned.
  rewrite Hp, getitem_last. returned.
  rewrite (split_pieces seg "?" qmark_ne). returned.
  destruct (pieces_head "?" seg qmark_ne) as [tl ->].
  now rewrite getitem_first.
Qed.


Lemma prefix_app_r (p s t : string) :
  String.prefix p s = true -> String.prefix p (s ++ t) = true.
Proof.
  intros H. apply prefix_iff in H as [r ->].
  rewrite append_assoc. apply prefix_app.
Qed.

Lemma contains_mid (sub a b : string) : contains sub (a ++ sub ++ b) = true.
Proof. apply contains_iff. eauto. Qed.

Lemma is_last_segment_unique (url seg seg' : string) :
  is_last_segment seg url -> is_last_segment seg' url -> seg = seg'.
Proof.
  intros [Hs [->|[pre Hu]]] [Hs' [H'|[pre' Hu']]].
  - now symmetry.
  - subst seg. now rewrite contains_mid in Hs.
  - subst seg'. now rewrite Hu, contains_mid in Hs'.
  - rewrite Hu in Hu'. now apply (after_last_char_unique "/" pre seg pre' seg').
Qed.

Lemma is_query_stripped_unique (seg id id' : string) :
  is_query_stripped id seg -> is_query_stripped id' seg -> id = id'.
Proof.
  assert (forall id id' rest rest',
             String.length id <= String.length id' ->
             id ++ rest = id' ++ rest' -> stops_at "?" rest ->
             contains "?" id' = false -> id = id') as Hle.
  { clear. intros id id' rest rest' Hlen H Hstop Hq.
    symmetry in H. destruct (append_split _ _ _ _ H Hlen) as (z & -> & ->).
    destruct Hstop as [Hz|Hz].
    - destruct z; [now rewrite append_nil_r | discriminate Hz].
    - destruct z as [|d z]; [now rewrite append_nil_r |].
      simpl in Hz. apply prefix_cons in Hz as [<- _].
      change (String "?" z) with ("?" ++ z) in Hq.
      now rewrite contains_mid in Hq. }
  intros [Hq (rest & -> & Hstop)] [Hq' (rest' & Heq & Hstop')].
  destruct (Nat.le_ge_cases (String.length id) (String.length id')).
  - now apply (Hle id id' rest rest').
  - symmetry. now apply (Hle id' id rest' rest).
Qed.

(** The guards of [extract_video_id] make its indexing safe: it
    returns for every string. *)
Lemma extract_video_id_total (url : string) :
  exists r, extract_video_id url = Ok r.
Proof.
  destruct (cut "v=" url) as [[pre post]|] eqn:Hc.
  - rewrite (extract_video_id_cut url pre post Hc). eauto.
  - apply cut_None in Hc.
    destruct (contains "youtu.be" url) eqn:Hy.
    + destruct (pieces_last "/" url slash_ne) as (l & seg & Hp & _).
      rewrite (extract_video_id_last url l seg Hc Hy Hp). eauto.
    + unfold extract_video_id. rewrite Hc, Hy. eauto.
Qed.

(** C1 (as amended).  For a URL that contains "v=", [extract_video_id]
    returns the text that starts right after the leftmost "v=" and runs
    to the next "&", the next "v=" or the end of the string, whichever
    comes first.  This is the text up to the next "&" (or the end), cut
    short at a further "v=" if there is one in it; when there is none,
    it is the identifier as the specification words it, and when the
    leftmost "v=" is followed by ID and "&", with no "&" and no "v="
    inside ID, the result is ID. *)
Theorem extract_video_id_marker (url : string) :
  contains "v=" url = true ->
  exists pre post id rest,
    url = pre ++ "v=" ++ post /\ leftmost "v=" pre url /\
    post = id ++ rest /\
    contains "&" id = false /\ contains "v=" id = false /\
    (stops_at "&" rest \/ stops_at "v=" rest) /\
    id = before "v=" (before "&" post) /\
    extract_video_id url = Ok (Some id) /\
    (contains "v=" (before "&" post) = false ->
     text_from_marker_to_ampersand url = Some id) /\
    (forall ID tail,
        post = ID ++ "&" ++ tail ->
        contains "&" ID = false -> contains "v=" ID = false -> id = ID).
Proof.
  intros Hv. rewrite contains_cut in Hv.
  destruct (cut "v=" url) as [[pre post]|] eqn:Hc; [clear Hv | discriminate].
  destruct (cut_Some _ _ _ _ Hc) as [Hurl Hleft].
  destruct (before_rest "v=" post) as (r1 & Hpost & Hr1).
  destruct (before_rest "&" (before "v=" post)) as (r2 & Hp1 & Hr2).
  exists pre, post, (before "&" (before "v=" post)), (r2 ++ r1).
  repeat split.
  - exact Hurl.
  - exact Hleft.
  - rewrite <- append_assoc, <- Hp1. exact Hpost.
  - apply contains_before, amp_ne.
  - apply (contains_false_app_l "v=" _ r2). rewrite <- Hp1.
    apply contains_before, marker_ne.
  - destruct Hr2 as [->|Hr2].
    + right. exact Hr1.
    + left. right. now apply prefix_app_r.
  - apply before_amp_marker.
  - now apply (extract_video_id_cut url pre post).
  - intros Hnone. unfold text_from_marker_to_ampersand. rewrite Hc.
    now rewrite before_amp_marker, (before_all "v=" _ Hnone).
  - intros ID tail -> Hamp Hmark.
    rewrite before_amp_marker, (before_char_app "&" ID tail Hamp).
    now apply before_all.
Qed.

Lemma extract_video_id_marker_witness :
  exists pre post id rest,
    "https://www.youtube.com/watch?v=abc123&t=5s" = pre ++ "v=" ++ post /\
    leftmost "v=" pre "https://www.youtube.com/watch?v=abc123&t=5s" /\
    post = id ++ rest /\
    contains "&" id = false /\ contains "v=" id = false /\
    (stops_at "&" rest \/ stops_at "v=" rest) /\
    id = before "v=" (before "&" post) /\
    extract_video_id "https://www.youtube.com/watch?v=abc123&t=5s" = Ok (Some id) /\
    (contains "v=" (before "&" post) = false ->
     text_from_marker_to_ampersand "https://www.youtube.com/watch?v=abc123&t=5s" = Some id) /\
    (forall ID tail,
        post = ID ++ "&" ++ tail ->
        contains "&" ID = false -> contains "v=" ID = false -> id = ID).
Proof.
  apply (extract_video_id_marker "https://www.youtube.com/watch?v=abc123&t=5s").
  reflexivity.
Defined.

(** C1 as the specification states it fails on a URL with a second
    "v=" before the next "&": the identifier stops at that second
    marker.  And a "v=ID&" further right than the leftmost "v=" is not
    the one that is read. *)
Lemma extract_video_id_stops_at_second_marker :
  contains "v=" "https://www.youtube.com/watch?v=abcv=def&t=5s" = true /\
  text_from_marker_to_ampersand "https://www.youtube.com/watch?v=abcv=def&t=5s"
    = Some "abcv=def" /\
  extract_video_id "https://www.youtube.com/watch?v=abcv=def&t=5s" = Ok (Some "abc") /\
  extract_video_id "https://www.youtube.com/watch?v=abcv=def&t=5s"
    <> Ok (text_from_marker_to_ampersand "https://www.youtube.com/watch?v=abcv=def&t=5s") /\
  extract_video_id "https://www.youtube.com/watch?dev=1&v=abc123&t=5s" = Ok (Some "1").
Proof.
  repeat split; try reflexivity. intros H. vm_compute in H. discriminate H.
Qed.

(** The URL shape of the specification's test: nothing but the
    identifier between the leftmost "v=" and the "&". *)
Lemma extract_video_id_marker_id (pre ID tail : string) :
  contains "v=" pre = false ->
  contains "&" ID = false -> contains "v=" ID = false ->
  extract_video_id (pre ++ "v=" ++ ID ++ "&" ++ tail) = Ok (Some ID).
Proof.
  intros Hpre Hamp Hmark.
  rewrite (extract_video_id_cut _ pre (ID ++ "&" ++ tail)).
  - rewrite before_amp_marker, (before_char_app "&" ID tail Hamp).
    now rewrite before_all.
  - apply cut_leftmost. now apply leftmost_marker.
Qed.

Lemma extract_video_id_segment (url : string) :
  contains "v=" url = false -> contains "youtu.be" url = true ->
  exists seg,
    is_last_segment seg url /\ is_query_stripped (before "?" seg) seg /\
    extract_video_id url = Ok (Some (before "?" seg)).
Proof.
  intros Hv Hy.
  destruct (pieces_last "/" url slash_ne) as (l & seg & Hp & Hseg & Hurl).
  destruct (before_rest "?" seg) as (rest & Hr & Hstop).
  exists seg. split; [split; assumption |]. split.
  - split; [apply contains_before, qmark_ne | eauto].
  - now apply (extract_video_id_last url l seg).
Qed.

(** C5.  For a URL that does not contain "v=" but contains "youtu.be",
    [extract_video_id] returns the last "/"-separated segment of the
    URL with a trailing "?..." removed; segment and result are the only
    strings that fit this description. *)
Theorem extract_video_id_short (url : string) :
  contains "v=" url = false -> contains "youtu.be" url = true ->
  exists seg id,
    is_last_segment seg url /\ is_query_stripped id seg /\
    extract_video_id url = Ok (Some id) /\
    (forall seg' id',
        is_last_segment seg' url -> is_query_stripped id' seg' -> id' = id).
Proof.
  intros Hv Hy.
  destruct (extract_video_id_segment url Hv Hy) as (seg & Hlast & Hstrip & Hres).
  exists seg, (before "?" seg). repeat split; try apply Hlast; try apply Hstrip.
  - exact Hres.
  - intros seg' id' Hlast' Hstrip'.
    rewrite <- (is_last_segment_unique url seg seg' Hlast Hlast') in Hstrip'.
    now apply (is_query_stripped_unique seg).
Qed.

Lemma extract_video_id_short_witness :
  exists seg id,
    is_last_segment seg "https://youtu.be/dQw4w9WgXcQ?si=xyz" /\
    is_query_stripped id seg /\
    extract_video_id "https://youtu.be/dQw4w9WgXcQ?si=xyz" = Ok (Some id) /\
    (forall seg' id',
        is_last_segment seg' "https://youtu.be/dQw4w9WgXcQ?si=xyz" ->
        is_query_stripped id' seg' -> id' = id).
Proof.
  apply (extract_video_id_short "https://youtu.be/dQw4w9WgXcQ?si=xyz"); reflexivity.
Defined.

(** The URL shape of the specification's test. *)
Lemma extract_video_id_short_id (ID : string) :
  contains "v=" ("https://youtu.be/" ++ ID ++ "?si=xyz") = false ->
  contains "/" ID = false -> contains "?" ID = false ->
  extract_video_id ("https://youtu.be/" ++ ID ++ "?si=xyz") = Ok (Some ID).
Proof.
  intros Hv Hslash Hq.
  destruct (extract_video_id_segment _ Hv) as (seg & Hlast & Hstrip & ->).
  - apply contains_iff. now exists "https://", ("/" ++ ID ++ "?si=xyz").
  - do 2 f_equal.
    assert (is_last_segment (ID ++ "?si=xyz") ("https://youtu.be/" ++ ID ++ "?si=xyz")) as Hlast'.
    { split.
      - rewrite contains_char_app, Hslash. reflexivity.
      - right. now exists "https://youtu.be". }
    rewrite (is_last_segment_unique _ _ _ Hlast Hlast') in Hstrip |- *.
    apply (is_query_stripped_unique (ID ++ "?si=xyz")); [exact Hstrip |].
    split; [assumption |]. exists "?si=xyz". split; [reflexivity | now right].
Qed.

(** ** The transcript fetcher *)

Lemma comprehension_text (frags : list fragment) (texts : list string) :
  text_fields frags texts ->
  comprehension (fun item : fragment => dict_getitem item "text") frags
  = Ok (map PStr texts).
Proof.
  induction 1 as [|item t frags texts Ht _ IH]; [reflexivity |].
  simpl. unfold dict_getitem at 1. rewrite Ht. returned. rewrite IH. reflexivity.
Qed.

Lemma expect_strs_map (texts : list string) : expect_strs (map PStr texts) = Ok texts.
Proof. induction texts as [|t texts IH]; simpl; [reflexivity | now rewrite IH]. Qed.

(** [" ".join] builds the transcript of the specification. *)
Lemma join_merge (sep a u : string) (rest : list string) :
  join sep ((a ++ sep ++ u) :: rest) = a ++ sep ++ join sep (u :: rest).
Proof.
  destruct rest as [|v rest]; [reflexivity |].
  change (join sep ((a ++ sep ++ u) :: v :: rest))
    with ((a ++ sep ++ u) ++ sep ++ join sep (v :: rest)).
  change (join sep (u :: v :: rest)) with (u ++ sep ++ join sep (v :: rest)).
  now rewrite !append_assoc.
Qed.

Lemma join_single_spaced (texts : list string) : join " " texts = single_spaced texts.
Proof.
  destruct texts as [|first others]; [reflexivity |].
  unfold single_spaced. revert first.
  induction others as [|u others IH]; intros first; [reflexivity |].
  cbn [fold_left]. rewrite <- IH. symmetry. apply join_merge.
Qed.

Lemma get_transcript_run_ok
    (transcript_api : string -> result (list fragment))
    (video_id : string) (frags : list fragment) (texts : list string) :
  transcript_api video_id = Ok frags ->
  text_fields frags texts ->
  run (get_transcript transcript_api video_id)
  = (Ok (Some (join " " texts)), [TranscriptRequest video_id]).
Proof.
  intros Hapi Htexts.
  unfold run, get_transcript, try_except_Exception, bind, emit, lift, ret.
  simpl. rewrite Hapi, (comprehension_text _ _ Htexts).
  unfold join_values. now rewrite expect_strs_map.
Qed.

Lemma get_transcript_run_error
    (transcript_api : string -> result (list fragment))
    (video_id : string) (e : exn) :
  transcript_api video_id = Raise e ->
  is_Exception e = true ->
  run (get_transcript transcript_api video_id) = (Ok None, [TranscriptRequest video_id]).
Proof.
  intros Hapi He.
  unfold run, get_transcript, try_except_Exception, bind, emit, lift, ret.
  simpl. now rewrite Hapi, He.
Qed.

(** C2.  When the transcript service returns fragments, each with a
    text field, [get_transcript] makes that one request and returns the
    first text followed by every further text in the order received,
    each preceded by a single space. *)
Theorem get_transcript_joins
    (transcript_api : string -> result (list fragment))
    (video_id : string) (frags : list fragment) (texts : list string) :
  transcript_api video_id = Ok frags ->
  text_fields frags texts ->
  run (get_transcript transcript_api video_id)
  = (Ok (Some (single_spaced texts)), [TranscriptRequest video_id]).
Proof.
  intros Hapi Htexts. rewrite <- join_single_spaced.
  now apply (get_transcript_run_ok _ _ frags).
Qed.

Lemma get_transcript_joins_witness :
  run (get_transcript (transcript_returns hello_world) "abc123")
  = (Ok (Some "Hello world"), [TranscriptRequest "abc123"]).
Proof.
  apply (get_transcript_joins (transcript_returns hello_world) "abc123"
           hello_world ["Hello"; "world"]).
  - reflexivity.
  - repeat constructor.
Defined.

(** C3.  Whatever error the transcript service raises, [get_transcript]
    returns [None] after that one request: the error does not reach
    the caller, and the outcome does not depend on which error it
    was. *)
Theorem get_transcript_collapses_errors
    (transcript_api : string -> result (list fragment))
    (video_id : string) (e : exn) :
  transcript_api video_id = Raise e ->
  is_Exception e = true ->
  run (get_transcript transcript_api video_id) = (Ok None, [TranscriptRequest video_id]).
Proof. apply get_transcript_run_error. Qed.

Lemma get_transcript_collapses_errors_witness :
  run (get_transcript
         (transcript_fails (ServiceError "TranscriptsDisabled" "Subtitles are disabled for this video"))
         "abc123")
  = (Ok None, [TranscriptRequest "abc123"]).
Proof.
  apply (get_transcript_collapses_errors _ "abc123"
           (ServiceError "TranscriptsDisabled" "Subtitles are disabled for this video"));
    reflexivity.
Defined.

Lemma comprehension_raises (frags : list fragment) (e : exn) :
  comprehension (fun item : fragment => dict_getitem item "text") frags = Raise e ->
  e = KeyError "text".
Proof.
  induction frags as [|item frags IH]; simpl; [discriminate |].
  unfold dict_getitem at 1. destruct (item !! "text"); simpl.
  - destruct (comprehension _ frags); simpl; [discriminate |].
    intros [= <-]. now apply IH.
  - now intros [= <-].
Qed.

Lemma expect_strs_raises (vals : list pyval) (e : exn) :
  expect_strs vals = Raise e -> e = TypeError.
Proof.
  induction vals as [|[s|m x] vals IH]; simpl; [discriminate | | now intros [= <-]].
  destruct (expect_strs vals); simpl; [discriminate |].
  intros [= <-]. now apply IH.
Qed.

(** The same holds for the errors of the function's own body (a
    fragment without a text, a text that is not a string): as long as
    the service raises nothing outside [Exception], the caller of
    [get_transcript] never sees an exception. *)
Lemma get_transcript_never_raises
    (transcript_api : string -> result (list fragment)) (video_id : string) :
  (forall e, transcript_api video_id = Raise e -> is_Exception e = true) ->
  exists r, run (get_transcript transcript_api video_id) = (Ok r, [TranscriptRequest video_id]).
Proof.
  intros Hexc.
  unfold run, get_transcript, try_except_Exception, bind, emit, lift, ret. simpl.
  destruct (transcript_api video_id) as [frags|e] eqn:Hapi.
  - destruct (comprehension _ frags) as [vals|e] eqn:Hc; simpl.
    + unfold join_values.
      destruct (expect_strs vals) as [ss|e] eqn:Hs; simpl; [eauto |].
      rewrite (expect_strs_raises _ _ Hs). simpl. eauto.
    + rewrite (comprehension_raises _ _ Hc). simpl. eauto.
  - rewrite (Hexc e eq_refl). eauto.
Qed.

(** ** The prompt composer *)

Lemma format_summary (text : string) :
  format_template summary_template {[ "text" := text ]} = Ok (summary_prompt text).
Proof.
  unfold summary_template, summary_prompt. cbn [format_template].
  unfold dict_getitem. rewrite lookup_singleton_eq.
  repeat returned. now rewrite append_nil_r.
Qed.

Lemma format_question (text question : string) :
  format_template question_template (<[ "text" := text ]> {[ "question" := question ]})
  = Ok (question_prompt text question).
Proof.
  unfold question_template, question_prompt. cbn [format_template].
  unfold dict_getitem.
  rewrite lookup_insert_eq, lookup_insert_ne, lookup_singleton_eq by discriminate.
  repeat returned. now rewrite append_nil_r.
Qed.

Lemma generate_summary_run
    (groq : llm_config -> string -> result string) (text api_key : string) :
  run (generate_summary groq text api_key)
  = (groq (model_configuration api_key) (summary_prompt text),
     [CompletionRequest (model_configuration api_key) (summary_prompt text)]).
Proof.
  unfold run, generate_summary, invoke, bind, lift, emit.
  now rewrite format_summary.
Qed.

Lemma ask_question_run
    (groq : llm_config -> string -> result string) (text question api_key : string) :
  run (ask_question groq text question api_key)
  = (groq (model_configuration api_key) (question_prompt text question),
     [CompletionRequest (model_configuration api_key) (question_prompt text question)]).
Proof.
  unfold run, ask_question, invoke, bind, lift, emit.
  now rewrite format_question.
Qed.


(** C8.  When the completion service raises an error on the prompt of
    [generate_summary], that operation ends with the same error after
    its single request, and likewise for [ask_question] and its prompt:
    nothing is caught, retried or replaced. *)
Theorem completion_failure_propagates
    (groq : llm_config -> string -> result string)
    (text question api_key : string) :
  (forall e,
      groq (model_configuration api_key) (summary_prompt text) = Raise e ->
      run (generate_summary groq text api_key)
      = (Raise e, [CompletionRequest (model_configuration api_key) (summary_prompt text)])) /\
  (forall e,
      groq (model_configuration api_key) (question_prompt text question) = Raise e ->
      run (ask_question groq text question api_key)
      = (Raise e,
         [CompletionRequest (model_configuration api_key) (question_prompt text question)])).
Proof.
  split; intros e H.
  - rewrite generate_summary_run. now rewrite H.
  - rewrite ask_question_run. now rewrite H.
Qed.

Lemma completion_failure_propagates_witness :
  run (generate_summary
         (completion_fails_on (summary_prompt "Hello world")
            (ServiceError "RateLimitError" "429") "A greeting.")
         "Hello world" "dummy")
  = (Raise (ServiceError "RateLimitError" "429"),
     [CompletionRequest (model_configuration "dummy") (summary_prompt "Hello world")]) /\
  run (ask_question
         (completion_fails_on (question_prompt "Hello world" "Who speaks?")
            (ServiceError "APIConnectionError" "Connection error.") "A greeting.")
         "Hello world" "Who speaks?" "dummy")
  = (Raise (ServiceError "APIConnectionError" "Connection error."),
     [CompletionRequest (model_configuration "dummy")
        (question_prompt "Hello world" "Who speaks?")]).
Proof.
  split.
  - apply (proj1 (completion_failure_propagates
                    (completion_fails_on (summary_prompt "Hello world")
                       (ServiceError "RateLimitError" "429") "A greeting.")
                    "Hello world" "Who speaks?" "dummy")).
    reflexivity.
  - apply (proj2 (completion_failure_propagates
                    (completion_fails_on (question_prompt "Hello world" "Who speaks?")
                       (ServiceError "APIConnectionError" "Connection error.") "A greeting.")
                    "Hello world" "Who speaks?" "dummy")).
    reflexivity.
Defined.

(** C9 (as amended).  The prompt that [ask_question] sends tells the
    model to answer from the transcript only and to say the fallback
    phrase when the answer is not there; what [ask_question] returns is
    the response of the service to that prompt, unchanged. *)
Theorem ask_question_prompt_and_answer
    (groq : llm_config -> string -> result string)
    (text question api_key : string) :
  exists prompt,
    run (ask_question groq text question api_key)
    = (groq (model_configuration api_key) prompt,
       [CompletionRequest (model_configuration api_key) prompt]) /\
    contains only_transcript_instruction prompt = true /\
    contains fallback_instruction prompt = true /\
    contains fallback_phrase fallback_instruction = true.
Proof.
  exists (question_prompt text question). split; [apply ask_question_run |].
  split; [| split; [| reflexivity]].
  - apply contains_iff.
    exists (nl ++ indent).
    exists (nl ++ indent ++ fallback_instruction ++ nl ++ indent ++ nl ++ indent ++
            "Transcript: " ++ text ++
            (nl ++ indent ++ nl ++ indent ++ "Question: ") ++ question ++ nl ++ indent).
    reflexivity.
  - apply contains_iff.
    exists (nl ++ indent ++ only_transcript_instruction ++ nl ++ indent).
    exists (nl ++ indent ++ nl ++ indent ++
            "Transcript: " ++ text ++
            (nl ++ indent ++ nl ++ indent ++ "Question: ") ++ question ++ nl ++ indent).
    reflexivity.
Qed.

(** C9 as the specification states it fails: the answer is whatever
    the service returns, and a service that answers "Paris." to a
    question the transcript does not answer yields an output without
    the fallback phrase. *)
Lemma ask_question_without_fallback :
  fst (run (ask_question (completion_returns "Paris.")
              "Hello world" "What is the capital of France?" "dummy"))
  = Ok "Paris." /\
  contains fallback_phrase "Paris." = false /\
  run (script (transcript_returns hello_world) (completion_returns "Paris.") media_http_only
         (typed "dummy" "https://www.youtube.com/watch?v=abc123&t=5s" false
            "What is the capital of France?"))
  = (Ok tt,
     (page_header ++
      [ Render (st_video "https://www.youtube.com/watch?v=abc123&t=5s");
        Render (st_spinner "Fetching transcript...");
        TranscriptRequest "abc123";
        Render (st_tabs ["📝 Summary"; "💬 Chat with Video"; "📜 Full Transcript"]);
        Render (st_button "Generate Summary");
        Render (st_info "Ask any question about the video content!");
        Render (st_text_input "Ask a question:");
        Render (st_spinner "Thinking...");
        CompletionRequest (model_configuration "dummy")
          (question_prompt "Hello world" "What is the capital of France?");
        Render (st_write "Paris.");
        Render (st_text_area "Subtitles" "Hello world" 300) ])%list).
Proof. repeat split; reflexivity. Qed.

(** ** The interactive shell *)

(** The script up to its first branch. *)
Lemma script_run_header
    (transcript_api : string -> result (list fragment))
    (groq : llm_config -> string -> result string)
    (media : string -> result unit) (inp : inputs) :
  run (script transcript_api groq media inp)
  = (let api_key := typed_api_key inp in
     let video_url := typed_video_url inp in
     if truthy video_url && truthy api_key then
       (video_id <- lift (extract_video_id video_url) ;;
        match if_truthy video_id with
        | Some video_id =>
            show_video media video_url ;;;
            render (st_spinner "Fetching transcript...") ;;;
            transcript_text <- get_transcript transcript_api video_id ;;
            match if_truthy transcript_text with
            | Some transcript_text => ready_view groq inp transcript_text api_key
            | None => emit no_transcript_error
            end
        | None => emit invalid_url_error
        end)%app page_header
     else if negb (truthy api_key) then (Ok tt, (page_header ++ [missing_key_warning])%list)
     else (Ok tt, page_header)).
Proof.
  unfold run, script. cbn zeta.
  destruct (truthy (typed_video_url inp) && truthy (typed_api_key inp)); [reflexivity |].
  destruct (negb (truthy (typed_api_key inp))); reflexivity.
Qed.

(** C4.  Without a URL or without an API key the script renders its
    header (which ends with the URL prompt), adds the warning when the
    key is missing, and does nothing else: no request is sent and the
    URL is not looked at. *)
Theorem script_idle
    (transcript_api : string -> result (list fragment))
    (groq : llm_config -> string -> result string)
    (media : string -> result unit) (inp : inputs) :
  truthy (typed_video_url inp) = false \/ truthy (typed_api_key inp) = false ->
  run (script transcript_api groq media inp)
  = (Ok tt,
     (page_header ++
      if truthy (typed_api_key inp) then [] else [missing_key_warning])%list) /\
  requests (snd (run (script transcript_api groq media inp))) = [].
Proof.
  intros Hidle. rewrite script_run_header. cbn zeta.
  destruct (truthy (typed_video_url inp)), (truthy (typed_api_key inp));
    destruct Hidle as [H|H]; try discriminate H; split; reflexivity.
Qed.

Lemma script_idle_witness :
  run (script (transcript_returns hello_world) (completion_returns "A greeting.") media_http_only
         (typed "" "https://www.youtube.com/watch?v=abc123&t=5s" true "Who speaks?"))
  = (Ok tt, (page_header ++ [missing_key_warning])%list) /\
  requests (snd (run (script (transcript_returns hello_world) (completion_returns "A greeting.") media_http_only
                        (typed "" "https://www.youtube.com/watch?v=abc123&t=5s" true "Who speaks?"))))
  = [].
Proof.
  apply (script_idle (transcript_returns hello_world) (completion_returns "A greeting.") media_http_only
           (typed "" "https://www.youtube.com/watch?v=abc123&t=5s" true "Who speaks?")).
  right. reflexivity.
Defined.

(** C6.  A string with neither "v=" nor "youtu.be" makes
    [extract_video_id] return [None]; when the script parses such a
    URL (a URL and an API key are present), it renders the "Invalid
    YouTube URL." error after its header and ends there, without any
    request. *)
Theorem not_found_is_invalid_url (url : string) :
  contains "v=" url = false -> contains "youtu.be" url = false ->
  extract_video_id url = Ok None /\
  forall (transcript_api : string -> result (list fragment))
         (groq : llm_config -> string -> result string)
         (media : string -> result unit) (inp : inputs),
    typed_video_url inp = url ->
    truthy (typed_video_url inp) && truthy (typed_api_key inp) = true ->
    run (script transcript_api groq media inp) = (Ok tt, (page_header ++ [invalid_url_error])%list) /\
    requests (snd (run (script transcript_api groq media inp))) = [].
Proof.
  intros Hv Hy.
  assert (extract_video_id url = Ok None) as Hnone.
  { unfold extract_video_id. now rewrite Hv, Hy. }
  split; [exact Hnone |].
  intros transcript_api groq media inp Hurl Hguard.
  rewrite script_run_header. cbn zeta. rewrite Hguard, Hurl.
  unfold bind, lift. rewrite Hnone. split; reflexivity.
Qed.

Lemma not_found_is_invalid_url_witness :
  extract_video_id "https://example.com/clip" = Ok None /\
  run (script (transcript_returns hello_world) (completion_returns "A greeting.") media_http_only
         (typed "dummy" "https://example.com/clip" true "Who speaks?"))
  = (Ok tt, (page_header ++ [invalid_url_error])%list) /\
  requests (snd (run (script (transcript_returns hello_world) (completion_returns "A greeting.") media_http_only
                        (typed "dummy" "https://example.com/clip" true "Who speaks?"))))
  = [].
Proof.
  destruct (not_found_is_invalid_url "https://example.com/clip" eq_refl eq_refl)
    as [Hnone Happ].
  split; [exact Hnone |].
  apply (Happ (transcript_returns hello_world) (completion_returns "A greeting.") media_http_only
           (typed "dummy" "https://example.com/clip" true "Who speaks?"));
    reflexivity.
Defined.

(** The script once the URL has been parsed into a usable identifier
    and the player has accepted the link. *)
Lemma script_run_fetching
    (transcript_api : string -> result (list fragment))
    (groq : llm_config -> string -> result string)
    (media : string -> result unit) (inp : inputs) (video_id : string) :
  truthy (typed_api_key inp) = true ->
  extract_video_id (typed_video_url inp) = Ok (Some video_id) ->
  truthy video_id = true ->
  media (typed_video_url inp) = Ok tt ->
  run (script transcript_api groq media inp)
  = (transcript_text <- get_transcript transcript_api video_id ;;
     match if_truthy transcript_text with
     | Some transcript_text => ready_view groq inp transcript_text (typed_api_key inp)
     | None => emit no_transcript_error
     end)%app
      (page_header ++ [Render (st_video (typed_video_url inp));
                       Render (st_spinner "Fetching transcript...")])%list.
Proof.
  intros Hkey Hid Hvid Hmedia. rewrite script_run_header. cbn zeta.
  assert (truthy (typed_video_url inp) = true) as ->.
  { destruct (typed_video_url inp); [discriminate Hid | reflexivity]. }
  rewrite Hkey. cbn [andb].
  unfold bind at 1, lift. rewrite Hid. unfold if_truthy at 1. rewrite Hvid.
  unfold bind at 1, show_video. rewrite Hmedia.
  reflexivity.
Qed.

(** [get_transcript] from any log. *)
Lemma get_transcript_at
    (transcript_api : string -> result (list fragment)) (video_id : string)
    (log : list event) :
  get_transcript transcript_api video_id log
  = (fst (run (get_transcript transcript_api video_id)),
     (log ++ snd (run (get_transcript transcript_api video_id)))%list).
Proof.
  unfold run, get_transcript, try_except_Exception, bind, emit, lift, ret. simpl.
  destruct (transcript_api video_id) as [frags|e]; simpl.
  - destruct (comprehension _ frags) as [vals|e]; simpl.
    + destruct (join_values " " vals) as [t|e]; simpl; [reflexivity |].
      now destruct (is_Exception e).
    + now destruct (is_Exception e).
  - now destruct (is_Exception e).
Qed.

(** C10.  When the transcript service returns no fragments,
    [get_transcript] returns the empty string; the script, once the
    player has accepted the link, then renders the same error as after
    a failed request and does not reach the tabs, so that its run is
    the one it has when the service raises an error. *)
Theorem empty_transcript_is_unavailable
    (transcript_api : string -> result (list fragment))
    (groq : llm_config -> string -> result string)
    (media : string -> result unit) (inp : inputs) (video_id : string) :
  truthy (typed_api_key inp) = true ->
  extract_video_id (typed_video_url inp) = Ok (Some video_id) ->
  truthy video_id = true ->
  media (typed_video_url inp) = Ok tt ->
  transcript_api video_id = Ok [] ->
  run (get_transcript transcript_api video_id)
  = (Ok (Some ""), [TranscriptRequest video_id]) /\
  run (script transcript_api groq media inp)
  = (Ok tt,
     (page_header ++ [Render (st_video (typed_video_url inp));
                      Render (st_spinner "Fetching transcript...");
                      TranscriptRequest video_id;
                      no_transcript_error])%list) /\
  entered_ready (snd (run (script transcript_api groq media inp))) = false /\
  forall (failing_api : string -> result (list fragment)) (e : exn),
    failing_api video_id = Raise e -> is_Exception e = true ->
    run (script failing_api groq media inp) = run (script transcript_api groq media inp).
Proof.
  intros Hkey Hid Hvid Hmedia Hempty.
  assert (run (get_transcript transcript_api video_id)
          = (Ok (Some ""), [TranscriptRequest video_id])) as Hget.
  { apply (get_transcript_run_ok transcript_api video_id [] []); [assumption | constructor]. }
  assert (run (script transcript_api groq media inp)
          = (Ok tt,
             (page_header ++ [Render (st_video (typed_video_url inp));
                              Render (st_spinner "Fetching transcript...");
                              TranscriptRequest video_id;
                              no_transcript_error])%list)) as Happ.
  { rewrite (script_run_fetching _ _ _ _ video_id Hkey Hid Hvid Hmedia).
    unfold bind at 1. rewrite get_transcript_at, Hget. reflexivity. }
  split; [exact Hget |]. split; [exact Happ |]. split.
  - rewrite Happ. reflexivity.
  - intros failing_api e Hfail He. rewrite Happ.
    rewrite (script_run_fetching _ _ _ _ video_id Hkey Hid Hvid Hmedia).
    unfold bind at 1.
    rewrite get_transcript_at, (get_transcript_run_error _ _ e Hfail He).
    reflexivity.
Qed.

Lemma empty_transcript_is_unavailable_witness :
  run (get_transcript (transcript_returns []) "abc123")
  = (Ok (Some ""), [TranscriptRequest "abc123"]) /\
  run (script (transcript_returns []) (completion_returns "A greeting.") media_http_only
         (typed "dummy" "https://www.youtube.com/watch?v=abc123&t=5s" true "Who speaks?"))
  = (Ok tt,
     (page_header ++ [Render (st_video "https://www.youtube.com/watch?v=abc123&t=5s");
                      Render (st_spinner "Fetching transcript...");
                      TranscriptRequest "abc123";
                      no_transcript_error])%list) /\
  run (script (transcript_fails (ServiceError "VideoUnavailable" "The video is no longer available"))
         (completion_returns "A greeting.") media_http_only
         (typed "dummy" "https://www.youtube.com/watch?v=abc123&t=5s" true "Who speaks?"))
  = run (script (transcript_returns []) (completion_returns "A greeting.") media_http_only
           (typed "dummy" "https://www.youtube.com/watch?v=abc123&t=5s" true "Who speaks?")).
Proof.
  destruct (empty_transcript_is_unavailable
              (transcript_returns []) (completion_returns "A greeting.") media_http_only
              (typed "dummy" "https://www.youtube.com/watch?v=abc123&t=5s" true "Who speaks?")
              "abc123" eq_refl eq_refl eq_refl eq_refl eq_refl)
    as (Hget & Happ & _ & Hsame).
  split; [exact Hget |]. split; [exact Happ |].
  apply (Hsame _ (ServiceError "VideoUnavailable" "The video is no longer available"));
    reflexivity.
Defined.

(** ** The Ready state *)

Lemma generate_summary_at
    (groq : llm_config -> string -> result string) (text api_key : string)
    (log : list event) :
  generate_summary groq text api_key log
  = (groq (model_configuration api_key) (summary_prompt text),
     (log ++ [CompletionRequest (model_configuration api_key) (summary_prompt text)])%list).
Proof.
  unfold generate_summary, invoke, bind, lift, emit.
  now rewrite format_summary.
Qed.

Lemma ask_question_at
    (groq : llm_config -> string -> result string) (text question api_key : string)
    (log : list event) :
  ask_question groq text question api_key log
  = (groq (model_configuration api_key) (question_prompt text question),
     (log ++ [CompletionRequest (model_configuration api_key)
                (question_prompt text question)])%list).
Proof.
  unfold ask_question, invoke, bind, lift, emit.
  now rewrite format_question.
Qed.

(** With a transcript, and the button not clicked, the tabs are
    rendered; a question is sent to the service and its answer written
    as it is.  An error of the service ends the run there: the
    transcript tab is not reached. *)
Lemma ready_view_question
    (groq : llm_config -> string -> result string) (inp : inputs)
    (transcript_text api_key : string) :
  clicked_generate inp = false ->
  truthy (typed_question inp) = true ->
  run (ready_view groq inp transcript_text api_key)
  = let asked :=
      [ Render (st_tabs ["📝 Summary"; "💬 Chat with Video"; "📜 Full Transcript"]);
        Render (st_button "Generate Summary");
        Render (st_info "Ask any question about the video content!");
        Render (st_text_input "Ask a question:");
        Render (st_spinner "Thinking...");
        CompletionRequest (model_configuration api_key)
          (question_prompt transcript_text (typed_question inp)) ] in
    match groq (model_configuration api_key)
            (question_prompt transcript_text (typed_question inp)) with
    | Ok answer =>
        (Ok tt, (asked ++ [ Render (st_write answer);
                            Render (st_text_area "Subtitles" transcript_text 300) ])%list)
    | Raise e => (Raise e, asked)
    end.
Proof.
  intros Hclick Hq. unfold run, ready_view. rewrite Hclick, Hq.
  unfold bind, render, emit, ret. cbn [List.app]. rewrite ask_question_at.
  now destruct (groq _ _).
Qed.

(** With the button clicked, the summary is requested first and
    rendered as it is; an error of the service ends the run before the
    question is looked at. *)
Lemma ready_view_summary
    (groq : llm_config -> string -> result string) (inp : inputs)
    (transcript_text api_key : string) :
  clicked_generate inp = true ->
  truthy (typed_question inp) = false ->
  run (ready_view groq inp transcript_text api_key)
  = let requested :=
      [ Render (st_tabs ["📝 Summary"; "💬 Chat with Video"; "📜 Full Transcript"]);
        Render (st_button "Generate Summary");
        Render (st_spinner "Analyzing video content...");
        CompletionRequest (model_configuration api_key) (summary_prompt transcript_text) ] in
    match groq (model_configuration api_key) (summary_prompt transcript_text) with
    | Ok summary =>
        (Ok tt, (requested ++ [ Render (st_markdown summary);
                                Render (st_info "Ask any question about the video content!");
                                Render (st_text_input "Ask a question:");
                                Render (st_text_area "Subtitles" transcript_text 300) ])%list)
    | Raise e => (Raise e, requested)
    end.
Proof.
  intros Hclick Hq. unfold run, ready_view. rewrite Hclick, Hq.
  unfold bind, render, emit, ret. cbn [List.app]. rewrite generate_summary_at.
  now destruct (groq _ _).
Qed.

(** ** Concrete runs *)

Example extract_watch :
  extract_video_id "https://www.youtube.com/watch?v=abc123&t=5s" = Ok (Some "abc123").
Proof. reflexivity. Qed.

Example extract_short :
  extract_video_id "https://youtu.be/dQw4w9WgXcQ?si=xyz" = Ok (Some "dQw4w9WgXcQ").
Proof. reflexivity. Qed.

Example extract_marker_only :
  extract_video_id "v=" = Ok (Some "").
Proof. reflexivity. Qed.

(** The end-to-end scenario of the specification: the transcript view
    shows "Test video." and the summary of the service is rendered. *)
Example end_to_end :
  run (script (transcript_returns [caption "Test" 0 1; caption "video." 1 2])
         (completion_returns "Canned summary.") media_http_only
         (typed "dummy" "https://www.youtube.com/watch?v=abc123&t=5s" true ""))
  = (Ok tt,
     (page_header ++
      [ Render (st_video "https://www.youtube.com/watch?v=abc123&t=5s");
        Render (st_spinner "Fetching transcript...");
        TranscriptRequest "abc123";
        Render (st_tabs ["📝 Summary"; "💬 Chat with Video"; "📜 Full Transcript"]);
        Render (st_button "Generate Summary");
        Render (st_spinner "Analyzing video content...");
        CompletionRequest (model_configuration "dummy") (summary_prompt "Test video.");
        Render (st_markdown "Canned summary.");
        Render (st_info "Ask any question about the video content!");
        Render (st_text_input "Ask a question:");
        Render (st_text_area "Subtitles" "Test video." 300) ])%list).
Proof. reflexivity. Qed.

(** An error of the completion service ends the run of the script with
    that error. *)
Example end_to_end_crash :
  run (script (transcript_returns hello_world)
         (completion_fails (ServiceError "APIConnectionError" "Connection error.")) media_http_only
         (typed "dummy" "https://youtu.be/abc123?si=xyz" false "Who speaks?"))
  = (Raise (ServiceError "APIConnectionError" "Connection error."),
     (page_header ++
      [ Render (st_video "https://youtu.be/abc123?si=xyz");
        Render (st_spinner "Fetching transcript...");
        TranscriptRequest "abc123";
        Render (st_tabs ["📝 Summary"; "💬 Chat with Video"; "📜 Full Transcript"]);
        Render (st_button "Generate Summary");
        Render (st_info "Ask any question about the video content!");
        Render (st_text_input "Ask a question:");
        Render (st_spinner "Thinking...");
        CompletionRequest (model_configuration "dummy")
          (question_prompt "Hello world" "Who speaks?") ])%list).
Proof. reflexivity. Qed.

(** * Further properties of the script *)

(** ** The URL parser *)

(** X1.  [extract_video_id] never raises: the test that guards each
    branch makes the indices 1, 0 and -1 valid for every string. *)
Theorem extract_video_id_never_raises (url : string) :
  exists r, extract_video_id url = Ok r.
Proof. apply extract_video_id_total. Qed.

(** X2.  An identifier that [extract_video_id] returns is a piece of
    the URL: the function cuts, and never builds or rewrites text. *)
Theorem extract_video_id_substring (url id : string) :
  extract_video_id url = Ok (Some id) -> contains id url = true.
Proof.
  intros H. apply contains_iff.
  destruct (cut "v=" url) as [[pre post]|] eqn:Hc.
  - rewrite (extract_video_id_cut url pre post Hc) in H. injection H as <-.
    apply cut_Some in Hc as [-> _].
    destruct (before_rest "v=" post) as (r1 & Hpost & _).
    destruct (before_rest "&" (before "v=" post)) as (r2 & Hp1 & _).
    exists (pre ++ "v="), (r2 ++ r1).
    rewrite Hpost at 1. rewrite Hp1 at 1. now rewrite !append_assoc.
  - apply cut_None in Hc. destruct (contains "youtu.be" url) eqn:Hy.
    + destruct (extract_video_id_segment url Hc Hy)
        as (seg & [_ Hurl] & [_ (rest & Hseg & _)] & Hres).
      rewrite Hres in H. injection H as <-.
      destruct Hurl as [->|[pre ->]].
      * exists "", rest. exact Hseg.
      * exists (pre ++ "/"), rest. rewrite Hseg at 1. now rewrite !append_assoc.
    + unfold extract_video_id in H. rewrite Hc, Hy in H. discriminate H.
Qed.

Lemma extract_video_id_substring_witness :
  contains "abc123" "https://www.youtube.com/watch?v=abc123&t=5s" = true.
Proof.
  apply (extract_video_id_substring "https://www.youtube.com/watch?v=abc123&t=5s" "abc123").
  reflexivity.
Defined.

(** X3.  Nothing to the left of the first "v=" matters: scheme, host
    and path are not looked at, and the bare text from the marker on
    gives the same result. *)
Theorem extract_video_id_ignores_prefix (pre post : string) :
  contains "v=" pre = false ->
  extract_video_id (pre ++ "v=" ++ post) = extract_video_id ("v=" ++ post).
Proof.
  intros Hpre.
  rewrite (extract_video_id_cut _ pre post)
    by (apply cut_leftmost; now apply leftmost_marker).
  symmetry. apply (extract_video_id_cut _ "" post).
  apply (cut_leftmost "v=" "" post). now apply leftmost_marker.
Qed.

Lemma extract_video_id_ignores_prefix_witness :
  extract_video_id ("ftp://example.org/?" ++ "v=" ++ "abc123&t=5s")
  = extract_video_id ("v=" ++ "abc123&t=5s").
Proof.
  apply (extract_video_id_ignores_prefix "ftp://example.org/?" "abc123&t=5s").
  reflexivity.
Defined.

(** X4.  The first URL shape of the docstring: a watch URL built from
    an identifier without "&" and without "v=" gives that identifier
    back, with or without further parameters after it. *)
Theorem extract_video_id_watch_round_trip (ID params : string) :
  contains "&" ID = false -> contains "v=" ID = false ->
  stops_at "&" params ->
  extract_video_id ("https://www.youtube.com/watch?v=" ++ ID ++ params) = Ok (Some ID).
Proof.
  intros Hamp Hmark Hparams.
  rewrite (extract_video_id_cut _ "https://www.youtube.com/watch?" (ID ++ params)).
  - rewrite before_amp_marker. destruct Hparams as [->|Hp].
    + rewrite append_nil_r, (before_all "&" ID Hamp). now rewrite before_all.
    + apply prefix_drop in Hp. rewrite Hp.
      rewrite (before_char_app "&" ID _ Hamp). now rewrite before_all.
  - apply (cut_leftmost "v=" "https://www.youtube.com/watch?" (ID ++ params)).
    now apply leftmost_marker.
Qed.

Lemma extract_video_id_watch_round_trip_witness :
  extract_video_id ("https://www.youtube.com/watch?v=" ++ "dQw4w9WgXcQ" ++ "&list=PL1&index=2")
  = Ok (Some "dQw4w9WgXcQ").
Proof.
  apply (extract_video_id_watch_round_trip "dQw4w9WgXcQ" "&list=PL1&index=2");
    [reflexivity | reflexivity | right; reflexivity].
Defined.

(** X5.  The second URL shape of the docstring: a short link built
    from an identifier without "/" and "?", followed by any tracker
    without "/", gives that identifier back, as long as the whole link
    has no "v=". *)
Theorem extract_video_id_short_round_trip (ID tracker : string) :
  contains "v=" ("https://youtu.be/" ++ ID ++ "?si=" ++ tracker) = false ->
  contains "/" ID = false -> contains "?" ID = false ->
  contains "/" tracker = false ->
  extract_video_id ("https://youtu.be/" ++ ID ++ "?si=" ++ tracker) = Ok (Some ID).
Proof.
  intros Hv Hslash Hq Htracker.
  destruct (extract_video_id_segment _ Hv) as (seg & Hlast & Hstrip & ->).
  - apply contains_iff. now exists "https://", ("/" ++ ID ++ "?si=" ++ tracker).
  - do 2 f_equal.
    assert (is_last_segment (ID ++ "?si=" ++ tracker)
              ("https://youtu.be/" ++ ID ++ "?si=" ++ tracker)) as Hlast'.
    { split.
      - rewrite !contains_char_app, Hslash, Htracker. reflexivity.
      - right. now exists "https://youtu.be". }
    rewrite (is_last_segment_unique _ _ _ Hlast Hlast') in Hstrip |- *.
    apply (is_query_stripped_unique (ID ++ "?si=" ++ tracker)); [exact Hstrip |].
    split; [assumption |]. exists ("?si=" ++ tracker). split; [reflexivity | now right].
Qed.

Lemma extract_video_id_short_round_trip_witness :
  extract_video_id ("https://youtu.be/" ++ "dQw4w9WgXcQ" ++ "?si=" ++ "AbCd_123&t=42")
  = Ok (Some "dQw4w9WgXcQ").
Proof.
  apply (extract_video_id_short_round_trip "dQw4w9WgXcQ" "AbCd_123&t=42"); reflexivity.
Defined.

(** ** The transcript fetcher *)

Lemma comprehension_text_inv (frags : list fragment) (vals : list pyval) (texts : list string) :
  comprehension (fun item : fragment => dict_getitem item "text") frags = Ok vals ->
  expect_strs vals = Ok texts ->
  text_fields frags texts.
Proof.
  revert vals texts. induction frags as [|item frags IH]; intros vals texts Hc Hs.
  - injection Hc as <-. injection Hs as <-. constructor.
  - simpl in Hc. unfold dict_getitem at 1 in Hc.
    destruct (item !! "text") as [v|] eqn:Hv; [|discriminate Hc].
    simpl in Hc.
    destruct (comprehension _ frags) as [vals'|e] eqn:Hc'; [|discriminate Hc].
    injection Hc as <-.
    destruct v as [t|m x]; [|discriminate Hs]. simpl in Hs.
    destruct (expect_strs vals') as [texts'|e] eqn:Hs'; [|discriminate Hs].
    injection Hs as <-. constructor; [exact Hv | now apply (IH vals')].
Qed.

(** The outcomes of [get_transcript], by what the service and the
    fragments are. *)
Lemma get_transcript_run_cases
    (transcript_api : string -> result (list fragment)) (video_id : string) :
  (exists frags texts,
      transcript_api video_id = Ok frags /\ text_fields frags texts /\
      run (get_transcript transcript_api video_id)
      = (Ok (Some (join " " texts)), [TranscriptRequest video_id])) \/
  (run (get_transcript transcript_api video_id) = (Ok None, [TranscriptRequest video_id]) /\
   ((exists frags, transcript_api video_id = Ok frags /\
                   forall texts, ~ text_fields frags texts) \/
    (exists e, transcript_api video_id = Raise e /\ is_Exception e = true))) \/
  (exists e,
      transcript_api video_id = Raise e /\ is_Exception e = false /\
      run (get_transcript transcript_api video_id)
      = (Raise e, [TranscriptRequest video_id])).
Proof.
  destruct (transcript_api video_id) as [frags|e] eqn:Hapi.
  - destruct (comprehension (fun item : fragment => dict_getitem item "text") frags)
      as [vals|e] eqn:Hc.
    + destruct (expect_strs vals) as [texts|e] eqn:Hs.
      * left. exists frags, texts.
        pose proof (comprehension_text_inv _ _ _ Hc Hs) as Ht.
        split; [reflexivity |]. split; [exact Ht |].
        now apply (get_transcript_run_ok _ _ frags).
      * right. left. split.
        -- unfold run, get_transcript, try_except_Exception, bind, emit, lift, ret.
           simpl. rewrite Hapi, Hc. unfold join_values. rewrite Hs.
           now rewrite (expect_strs_raises _ _ Hs).
        -- left. exists frags. split; [reflexivity |].
           intros texts Ht. rewrite (comprehension_text _ _ Ht) in Hc.
           injection Hc as <-. rewrite expect_strs_map in Hs. discriminate Hs.
    + right. left. split.
      * unfold run, get_transcript, try_except_Exception, bind, emit, lift, ret.
        simpl. rewrite Hapi, Hc. now rewrite (comprehension_raises _ _ Hc).
      * left. exists frags. split; [reflexivity |].
        intros texts Ht. rewrite (comprehension_text _ _ Ht) in Hc. discriminate Hc.
  - destruct (is_Exception e) eqn:He.
    + right. left. split.
      * now apply (get_transcript_run_error _ _ e).
      * right. now exists e.
    + right. right. exists e. split; [reflexivity |]. split; [exact He |].
      unfold run, get_transcript, try_except_Exception, bind, emit, lift, ret.
      simpl. now rewrite Hapi, He.
Qed.

Lemma text_fields_has_text (frags : list fragment) (texts : list string) :
  text_fields frags texts -> forallb has_text frags = true.
Proof.
  induction 1 as [|item t frags texts Ht _ IH]; [reflexivity |].
  simpl. unfold has_text at 1. now rewrite Ht.
Qed.

Lemma get_transcript_log
    (transcript_api : string -> result (list fragment)) (video_id : string) :
  snd (run (get_transcript transcript_api video_id)) = [TranscriptRequest video_id].
Proof.
  destruct (get_transcript_run_cases transcript_api video_id)
    as [(frags & texts & _ & _ & ->)|[(-> & _)|(e & _ & _ & ->)]]; reflexivity.
Qed.

(** X6.  One call of [get_transcript] sends exactly one request to the
    transcript service, for the identifier it was given, whatever the
    service answers: there is no retry and no second lookup. *)
Theorem get_transcript_single_request
    (transcript_api : string -> result (list fragment)) (video_id : string) :
  snd (run (get_transcript transcript_api video_id)) = [TranscriptRequest video_id].
Proof. apply get_transcript_log. Qed.

(** X7.  [except Exception] does not catch what is outside
    [Exception]: a [KeyboardInterrupt] or [SystemExit] raised while the
    service is called leaves [get_transcript] as it is. *)
Theorem get_transcript_base_exception_propagates
    (transcript_api : string -> result (list fragment)) (video_id : string) (e : exn) :
  transcript_api video_id = Raise e -> is_Exception e = false ->
  run (get_transcript transcript_api video_id) = (Raise e, [TranscriptRequest video_id]).
Proof.
  intros Hapi He.
  unfold run, get_transcript, try_except_Exception, bind, emit, lift, ret.
  simpl. now rewrite Hapi, He.
Qed.

Lemma get_transcript_base_exception_propagates_witness :
  run (get_transcript (transcript_fails (BaseExc "KeyboardInterrupt")) "abc123")
  = (Raise (BaseExc "KeyboardInterrupt"), [TranscriptRequest "abc123"]).
Proof.
  apply (get_transcript_base_exception_propagates _ "abc123" (BaseExc "KeyboardInterrupt"));
    reflexivity.
Defined.

(** X8.  The only exception that leaves [get_transcript] is one the
    service raised from outside [Exception]; the [KeyError] of a
    fragment without text and the [TypeError] of a text that is not a
    string never reach the caller. *)
Theorem get_transcript_raise_inv
    (transcript_api : string -> result (list fragment)) (video_id : string) (e : exn) :
  fst (run (get_transcript transcript_api video_id)) = Raise e ->
  transcript_api video_id = Raise e /\ is_Exception e = false.
Proof.
  intros H.
  destruct (get_transcript_run_cases transcript_api video_id)
    as [(frags & texts & _ & _ & Hr)|[(Hr & _)|(e' & Hapi & He & Hr)]];
    rewrite Hr in H; simpl in H; try discriminate H.
  injection H as <-. now split.
Qed.

Lemma get_transcript_raise_inv_witness :
  transcript_fails (BaseExc "SystemExit") "abc123" = Raise (BaseExc "SystemExit") /\
  is_Exception (BaseExc "SystemExit") = false.
Proof.
  apply (get_transcript_raise_inv (transcript_fails (BaseExc "SystemExit")) "abc123").
  reflexivity.
Defined.

(** X9.  When the service answers with fragments of which one has no
    text, or a text that is not a string, [get_transcript] returns
    [None], exactly as when the service fails: the captions that were
    well formed are dropped with the others. *)
Theorem get_transcript_malformed_fragments
    (transcript_api : string -> result (list fragment)) (video_id : string)
    (frags : list fragment) :
  transcript_api video_id = Ok frags ->
  forallb has_text frags = false ->
  run (get_transcript transcript_api video_id) = (Ok None, [TranscriptRequest video_id]).
Proof.
  intros Hapi Hbad.
  destruct (get_transcript_run_cases transcript_api video_id)
    as [(frags' & texts & Hapi' & Ht & _)|[(Hr & _)|(e & Hapi' & _)]].
  - rewrite Hapi in Hapi'. injection Hapi' as <-.
    rewrite (text_fields_has_text _ _ Ht) in Hbad. discriminate Hbad.
  - exact Hr.
  - rewrite Hapi in Hapi'. discriminate Hapi'.
Qed.

Lemma get_transcript_malformed_fragments_witness :
  run (get_transcript
         (transcript_returns [caption "Hello" 0 2; caption_without_text 2 3; caption "world" 5 1])
         "abc123")
  = (Ok None, [TranscriptRequest "abc123"]).
Proof.
  apply (get_transcript_malformed_fragments _ "abc123"
           [caption "Hello" 0 2; caption_without_text 2 3; caption "world" 5 1]);
    reflexivity.
Defined.

(** X10.  A transcript that [get_transcript] returns is never made up:
    the service answered with fragments that all carry a text, and the
    transcript is the first of these texts followed by every further
    one in order, each preceded by a single space. *)
Theorem get_transcript_some_inv
    (transcript_api : string -> result (list fragment)) (video_id transcript : string) :
  fst (run (get_transcript transcript_api video_id)) = Ok (Some transcript) ->
  exists frags texts,
    transcript_api video_id = Ok frags /\ text_fields frags texts /\
    transcript = single_spaced texts.
Proof.
  intros H.
  destruct (get_transcript_run_cases transcript_api video_id)
    as [(frags & texts & Hapi & Ht & Hr)|[(Hr & _)|(e & _ & _ & Hr)]];
    rewrite Hr in H; simpl in H; try discriminate H.
  injection H as <-. exists frags, texts. now rewrite <- join_single_spaced.
Qed.

Lemma get_transcript_some_inv_witness :
  exists frags texts,
    transcript_returns hello_world "abc123" = Ok frags /\ text_fields frags texts /\
    "Hello world" = single_spaced texts.
Proof.
  apply (get_transcript_some_inv (transcript_returns hello_world) "abc123" "Hello world").
  reflexivity.
Defined.

(** X11.  The transcript and the question are put into the question
    prompt as they are, with nothing that marks where one ends: a
    transcript that carries the text which separates the two slots
    gives the same request, and so the same answer, as a shorter
    transcript with a longer question. *)
Theorem ask_question_prompt_ambiguous
    (groq : llm_config -> string -> result string) (a b c api_key : string) :
  run (ask_question groq (a ++ question_separator ++ b) c api_key)
  = run (ask_question groq a (b ++ question_separator ++ c) api_key).
Proof.
  rewrite !ask_question_run.
  assert (question_prompt (a ++ question_separator ++ b) c
          = question_prompt a (b ++ question_separator ++ c)) as ->; [|reflexivity].
  unfold question_prompt.
  change (nl ++ indent ++ nl ++ indent ++ "Question: ") with question_separator.
  now rewrite !append_assoc.
Qed.

(** X12.  The request of [generate_summary] determines the transcript
    and the API key it was built from: two calls that send the same
    request were given the same text and the same key. *)
Theorem generate_summary_request_inj
    (groq groq' : llm_config -> string -> result string) (t1 t2 k1 k2 : string) :
  snd (run (generate_summary groq t1 k1)) = snd (run (generate_summary groq' t2 k2)) ->
  t1 = t2 /\ k1 = k2.
Proof.
  rewrite !generate_summary_run. simpl. intros H.
  injection H as Hkey Hp. split; [| exact Hkey].
  assert (String.length t1 = String.length t2) as Hlen.
  { apply (f_equal String.length) in Hp. rewrite !length_append in Hp. lia. }
  now destruct (append_inv_length _ _ _ _ Hp Hlen).
Qed.

Lemma generate_summary_request_inj_witness :
  "Hello world" = "Hello world" /\ "dummy" = "dummy".
Proof.
  apply (generate_summary_request_inj
           (completion_returns "A greeting.")
           (completion_fails (ServiceError "RateLimitError" "429"))
           "Hello world" "Hello world" "dummy" "dummy").
  reflexivity.
Defined.

Lemma length_one_slot (l r t : string) :
  String.length (l ++ t ++ r) = String.length (l ++ "" ++ r) + String.length t.
Proof. rewrite !length_append. simpl. lia. Qed.

Lemma length_two_slots (l m r t q : string) :
  String.length (l ++ t ++ m ++ q ++ r)
  = String.length (l ++ "" ++ m ++ "" ++ r) + String.length t + String.length q.
Proof. rewrite !length_append. simpl. lia. Qed.

Lemma contains_second_slot (l m r t q : string) :
  contains q (l ++ t ++ m ++ q ++ r) = true.
Proof.
  apply contains_iff. exists (l ++ t ++ m), r. now rewrite !append_assoc.
Qed.

(** X13.  Both operations send the whole transcript: the prompt is the
    fixed text of the template with the transcript (and the question)
    inserted unshortened, so its length is the length of the empty
    prompt plus the lengths of what was inserted. *)
Theorem prompts_carry_whole_transcript
    (groq : llm_config -> string -> result string) (text question api_key : string) :
  exists prompt_s prompt_q,
    snd (run (generate_summary groq text api_key))
    = [CompletionRequest (model_configuration api_key) prompt_s] /\
    snd (run (ask_question groq text question api_key))
    = [CompletionRequest (model_configuration api_key) prompt_q] /\
    contains text prompt_s = true /\
    contains text prompt_q = true /\ contains question prompt_q = true /\
    String.length prompt_s
    = String.length (summary_prompt "") + String.length text /\
    String.length prompt_q
    = String.length (question_prompt "" "") + String.length text + String.length question.
Proof.
  exists (summary_prompt text), (question_prompt text question).
  rewrite generate_summary_run, ask_question_run.
  split; [reflexivity |]. split; [reflexivity |].
  split; [| split; [| split; [| split]]].
  - apply contains_mid.
  - apply contains_mid.
  - apply contains_second_slot.
  - apply length_one_slot.
  - apply length_two_slots.
Qed.

(** ** The interactive shell *)

(** The run of the three tabs, by what was clicked and typed. *)
Lemma ready_view_run
    (groq : llm_config -> string -> result string) (inp : inputs)
    (transcript_text api_key : string) :
  run (ready_view groq inp transcript_text api_key)
  = let cfg := model_configuration api_key in
    let question := typed_question inp in
    let ask (log : list event) :=
      if truthy question then
        match groq cfg (question_prompt transcript_text question) with
        | Ok answer =>
            (Ok tt,
             (log ++ question_asked ++
              [ Render (st_spinner "Thinking...");
                CompletionRequest cfg (question_prompt transcript_text question);
                Render (st_write answer);
                transcript_shown transcript_text ])%list)
        | Raise e =>
            (Raise e,
             (log ++ question_asked ++
              [ Render (st_spinner "Thinking...");
                CompletionRequest cfg (question_prompt transcript_text question) ])%list)
        end
      else (Ok tt, (log ++ question_asked ++ [transcript_shown transcript_text])%list) in
    if clicked_generate inp then
      match groq cfg (summary_prompt transcript_text) with
      | Ok summary =>
          ask (tabs_opened ++
               [ Render (st_spinner "Analyzing video content...");
                 CompletionRequest cfg (summary_prompt transcript_text);
                 Render (st_markdown summary) ])%list
      | Raise e =>
          (Raise e,
           (tabs_opened ++
            [ Render (st_spinner "Analyzing video content...");
              CompletionRequest cfg (summary_prompt transcript_text) ])%list)
      end
    else ask tabs_opened.
Proof.
  unfold run, ready_view, bind, render, emit, ret. cbn [List.app]. cbn zeta.
  destruct (clicked_generate inp).
  - rewrite generate_summary_at. cbn [List.app].
    destruct (groq _ (summary_prompt transcript_text)); [|reflexivity].
    destruct (truthy (typed_question inp)); [|reflexivity].
    rewrite ask_question_at. cbn [List.app]. now destruct (groq _ _).
  - destruct (truthy (typed_question inp)); [|reflexivity].
    rewrite ask_question_at. cbn [List.app]. now destruct (groq _ _).
Qed.

(** The tabs from any log: the events are added to those already
    there. *)
Lemma ready_view_at
    (groq : llm_config -> string -> result string) (inp : inputs)
    (transcript_text api_key : string) (log : list event) :
  ready_view groq inp transcript_text api_key log
  = (fst (run (ready_view groq inp transcript_text api_key)),
     (log ++ snd (run (ready_view groq inp transcript_text api_key)))%list).
Proof.
  unfold run, ready_view, bind, render, emit, ret. cbn [List.app].
  destruct (clicked_generate inp).
  - rewrite !generate_summary_at.
    destruct (groq _ (summary_prompt transcript_text)); cbn [fst snd List.app];
      [|now rewrite <- !app_assoc].
    destruct (truthy (typed_question inp)); cbn [fst snd List.app];
      [|now rewrite <- !app_assoc].
    rewrite !ask_question_at.
    destruct (groq _ _); cbn [fst snd List.app]; now rewrite <- !app_assoc.
  - destruct (truthy (typed_question inp)); cbn [fst snd List.app];
      [|now rewrite <- !app_assoc].
    rewrite !ask_question_at.
    destruct (groq _ _); cbn [fst snd List.app]; now rewrite <- !app_assoc.
Qed.

(** The run of the script as a tree of its decisions. *)
Lemma script_run_tree
    (transcript_api : string -> result (list fragment))
    (groq : llm_config -> string -> result string)
    (media : string -> result unit) (inp : inputs) :
  run (script transcript_api groq media inp)
  = let api_key := typed_api_key inp in
    let video_url := typed_video_url inp in
    if truthy video_url && truthy api_key then
      match extract_video_id video_url with
      | Ok video_id =>
          match if_truthy video_id with
          | Some video_id =>
              match media video_url with
              | Ok _ =>
                  let fetched :=
                    (page_header ++ fetching_events video_url video_id)%list in
                  match fst (run (get_transcript transcript_api video_id)) with
                  | Ok transcript_text =>
                      match if_truthy transcript_text with
                      | Some transcript_text =>
                          (fst (run (ready_view groq inp transcript_text api_key)),
                           (fetched ++
                            snd (run (ready_view groq inp transcript_text api_key)))%list)
                      | None => (Ok tt, (fetched ++ [no_transcript_error])%list)
                      end
                  | Raise e => (Raise e, fetched)
                  end
              | Raise e => (Raise e, page_header)
              end
          | None => (Ok tt, (page_header ++ [invalid_url_error])%list)
          end
      | Raise e => (Raise e, page_header)
      end
    else if negb (truthy api_key) then (Ok tt, (page_header ++ [missing_key_warning])%list)
    else (Ok tt, page_header).
Proof.
  rewrite script_run_header. cbn zeta.
  destruct (truthy (typed_video_url inp) && truthy (typed_api_key inp)); [|reflexivity].
  unfold bind at 1, lift.
  destruct (extract_video_id (typed_video_url inp)) as [video_id|e]; [|reflexivity].
  destruct (if_truthy video_id) as [vid|]; [|reflexivity].
  unfold bind at 1, show_video.
  destruct (media (typed_video_url inp)) as [[]|e]; [|reflexivity].
  unfold bind, render, emit. cbn [List.app].
  rewrite get_transcript_at, get_transcript_log.
  assert ((((page_header ++ [Render (st_video (typed_video_url inp))]) ++
            [Render (st_spinner "Fetching transcript...")]) ++
           [TranscriptRequest vid])%list
          = (page_header ++ fetching_events (typed_video_url inp) vid)%list) as ->
    by reflexivity.
  destruct (fst (run (get_transcript transcript_api vid))) as [text|e]; [|reflexivity].
  destruct (if_truthy text) as [t|]; [|reflexivity].
  apply ready_view_at.
Qed.

Lemma if_truthy_Some (x : option string) (s : string) :
  if_truthy x = Some s -> x = Some s /\ truthy s = true.
Proof.
  destruct x as [t|]; simpl; [|discriminate].
  destruct (truthy t) eqn:Ht; [|discriminate]. now intros [= <-].
Qed.

Lemma truthy_append (a b : string) : truthy (a ++ b) = truthy a || truthy b.
Proof. destruct a; [reflexivity | reflexivity]. Qed.

Lemma truthy_join (texts : list string) :
  truthy (join " " texts) = negb (texts_blank texts).
Proof.
  destruct texts as [|t [|u texts]]; [reflexivity | |].
  - simpl. now rewrite negb_involutive.
  - change (join " " (t :: u :: texts)) with (t ++ " " ++ join " " (u :: texts)).
    rewrite truthy_append. simpl. apply orb_true_r.
Qed.

(** The run of the script once a non-empty transcript has been
    fetched. *)
Lemma script_run_ready
    (transcript_api : string -> result (list fragment))
    (groq : llm_config -> string -> result string)
    (media : string -> result unit) (inp : inputs)
    (video_id : string) (frags : list fragment) (texts : list string) :
  truthy (typed_api_key inp) = true ->
  extract_video_id (typed_video_url inp) = Ok (Some video_id) ->
  truthy video_id = true ->
  media (typed_video_url inp) = Ok tt ->
  transcript_api video_id = Ok frags ->
  text_fields frags texts ->
  texts_blank texts = false ->
  run (script transcript_api groq media inp)
  = (fst (run (ready_view groq inp (join " " texts) (typed_api_key inp))),
     (page_header ++ fetching_events (typed_video_url inp) video_id ++
      snd (run (ready_view groq inp (join " " texts) (typed_api_key inp))))%list).
Proof.
  intros Hkey Hid Hvid Hmedia Hapi Htexts Hblank.
  rewrite script_run_tree. cbn zeta.
  assert (truthy (typed_video_url inp) = true) as ->.
  { destruct (typed_video_url inp); [discriminate Hid | reflexivity]. }
  rewrite Hkey, Hid. cbn [andb]. unfold if_truthy at 1. rewrite Hvid, Hmedia.
  rewrite (get_transcript_run_ok _ _ frags texts Hapi Htexts). cbn [fst].
  unfold if_truthy. rewrite truthy_join, Hblank. cbn [negb].
  now rewrite <- app_assoc.
Qed.

Lemma ready_view_entered
    (groq : llm_config -> string -> result string) (inp : inputs)
    (transcript_text api_key : string) :
  exists rest,
    snd (run (ready_view groq inp transcript_text api_key)) = (tabs_opened ++ rest)%list.
Proof.
  rewrite ready_view_run. cbn zeta.
  destruct (clicked_generate inp); [destruct (groq _ (summary_prompt transcript_text)) |];
    try (destruct (truthy (typed_question inp)); [destruct (groq _ _) |]);
    cbn [snd]; rewrite <- ?app_assoc; eauto.
Qed.

(** The completion requests of the tabs. *)
Lemma ready_view_completion_inv
    (groq : llm_config -> string -> result string) (inp : inputs)
    (transcript_text api_key : string) (cfg : llm_config) (prompt : string) :
  In (CompletionRequest cfg prompt)
     (snd (run (ready_view groq inp transcript_text api_key))) ->
  cfg = model_configuration api_key /\
  ((clicked_generate inp = true /\ prompt = summary_prompt transcript_text) \/
   (truthy (typed_question inp) = true /\
    prompt = question_prompt transcript_text (typed_question inp))).
Proof.
  rewrite ready_view_run. cbn zeta.
  destruct (clicked_generate inp) eqn:Hclick;
    [destruct (groq _ (summary_prompt transcript_text)) |];
    try (destruct (truthy (typed_question inp)) eqn:Hq; [destruct (groq _ _) |]);
    cbn [snd]; unfold tabs_opened, question_asked, transcript_shown; simpl;
    intros H; repeat (destruct H as [H|H]; try discriminate H);
    try contradiction; injection H as <- <-; auto.
Qed.

Lemma ready_view_no_transcript_request
    (groq : llm_config -> string -> result string) (inp : inputs)
    (transcript_text api_key v : string) :
  ~ In (TranscriptRequest v) (snd (run (ready_view groq inp transcript_text api_key))).
Proof.
  rewrite ready_view_run. cbn zeta.
  destruct (clicked_generate inp);
    [destruct (groq _ (summary_prompt transcript_text)) |];
    try (destruct (truthy (typed_question inp)); [destruct (groq _ _) |]);
    cbn [snd]; unfold tabs_opened, question_asked, transcript_shown; simpl;
    intros H; repeat (destruct H as [H|H]; try discriminate H); contradiction.
Qed.

Lemma ready_view_crash_inv
    (groq : llm_config -> string -> result string) (inp : inputs)
    (transcript_text api_key : string) (e : exn) :
  fst (run (ready_view groq inp transcript_text api_key)) = Raise e ->
  exists prompt, groq (model_configuration api_key) prompt = Raise e.
Proof.
  rewrite ready_view_run. cbn zeta.
  destruct (clicked_generate inp);
    [destruct (groq _ (summary_prompt transcript_text)) eqn:Hs |];
    try (destruct (truthy (typed_question inp)); [destruct (groq _ (question_prompt _ _)) eqn:Hq |]);
    cbn [fst]; intros H; try discriminate H; injection H as <-; eauto.
Qed.

(** X14.  An identifier that is the empty string counts as no
    identifier: for a URL that ends right after "v=", or a short link
    that ends with "/", the script shows the invalid-URL error and
    sends no request. *)
Theorem script_empty_identifier_is_invalid
    (transcript_api : string -> result (list fragment))
    (groq : llm_config -> string -> result string)
    (media : string -> result unit) (inp : inputs) :
  truthy (typed_api_key inp) = true ->
  extract_video_id (typed_video_url inp) = Ok (Some "") ->
  run (script transcript_api groq media inp) = (Ok tt, (page_header ++ [invalid_url_error])%list).
Proof.
  intros Hkey Hid. rewrite script_run_tree. cbn zeta.
  assert (truthy (typed_video_url inp) = true) as ->.
  { destruct (typed_video_url inp); [discriminate Hid | reflexivity]. }
  now rewrite Hkey, Hid.
Qed.

Lemma script_empty_identifier_is_invalid_witness :
  run (script (transcript_returns hello_world) (completion_returns "A greeting.") media_http_only
         (typed "dummy" "https://www.youtube.com/watch?v=" true "Who speaks?"))
  = (Ok tt, (page_header ++ [invalid_url_error])%list).
Proof.
  apply (script_empty_identifier_is_invalid
           (transcript_returns hello_world) (completion_returns "A greeting.") media_http_only
           (typed "dummy" "https://www.youtube.com/watch?v=" true "Who speaks?"));
    reflexivity.
Defined.

(** X15.  A run of the script ends with an exception only when the
    completion service raised it, when the player refused the typed
    link with it, or when the transcript service raised it from outside
    [Exception]; parsing the URL and reading the fragments never end a
    run. *)
Theorem script_crash_inv
    (transcript_api : string -> result (list fragment))
    (groq : llm_config -> string -> result string)
    (media : string -> result unit) (inp : inputs) (e : exn) :
  fst (run (script transcript_api groq media inp)) = Raise e ->
  (exists prompt, groq (model_configuration (typed_api_key inp)) prompt = Raise e) \/
  media (typed_video_url inp) = Raise e \/
  (exists video_id, transcript_api video_id = Raise e /\ is_Exception e = false).
Proof.
  rewrite script_run_tree. cbn zeta.
  destruct (truthy (typed_video_url inp) && truthy (typed_api_key inp));
    [| destruct (negb (truthy (typed_api_key inp))); discriminate].
  destruct (extract_video_id_total (typed_video_url inp)) as [r ->].
  destruct (if_truthy r) as [vid|]; [|discriminate].
  destruct (media (typed_video_url inp)) as [[]|e'];
    [| cbn [fst]; intros [= <-]; right; left; reflexivity].
  destruct (get_transcript_run_cases transcript_api vid)
    as [(frags & texts & _ & _ & ->)|[(-> & _)|(e' & Hapi & He & ->)]]; cbn [fst].
  - destruct (if_truthy (Some (join " " texts))) as [t|]; [|discriminate].
    cbn [fst]. intros H. left. now apply (ready_view_crash_inv groq inp t).
  - discriminate.
  - intros [= <-]. right. right. now exists vid.
Qed.

Lemma script_crash_inv_witness :
  (exists prompt,
      completion_returns "A greeting." (model_configuration "dummy") prompt
      = Raise (ServiceError "MediaFileStorageError" "Error opening media file")) \/
  media_http_only "youtu.be/abc123"
  = Raise (ServiceError "MediaFileStorageError" "Error opening media file") \/
  (exists video_id,
      transcript_returns hello_world video_id
      = Raise (ServiceError "MediaFileStorageError" "Error opening media file") /\
      is_Exception (ServiceError "MediaFileStorageError" "Error opening media file") = false).
Proof.
  apply (script_crash_inv (transcript_returns hello_world)
           (completion_returns "A greeting.") media_http_only
           (typed "dummy" "youtu.be/abc123" true "")).
  reflexivity.
Defined.

(** X16.  Whatever reaches the completion service comes from the
    fetched transcript: every completion request of a run carries the
    typed API key with the fixed model settings, and its prompt is the
    summary prompt of the transcript (after a click) or the question
    prompt of the transcript and the typed question. *)
Theorem script_completion_request_inv
    (transcript_api : string -> result (list fragment))
    (groq : llm_config -> string -> result string)
    (media : string -> result unit) (inp : inputs)
    (cfg : llm_config) (prompt : string) :
  In (CompletionRequest cfg prompt) (snd (run (script transcript_api groq media inp))) ->
  cfg = model_configuration (typed_api_key inp) /\
  truthy (typed_api_key inp) = true /\
  exists video_id transcript_text,
    extract_video_id (typed_video_url inp) = Ok (Some video_id) /\
    fst (run (get_transcript transcript_api video_id)) = Ok (Some transcript_text) /\
    truthy transcript_text = true /\
    ((clicked_generate inp = true /\ prompt = summary_prompt transcript_text) \/
     (truthy (typed_question inp) = true /\
      prompt = question_prompt transcript_text (typed_question inp))).
Proof.
  rewrite script_run_tree. cbn zeta.
  destruct (truthy (typed_video_url inp) && truthy (typed_api_key inp)) eqn:Hguard.
  2:{ destruct (negb (truthy (typed_api_key inp))); cbn [snd]; intros H; walk_events H. }
  apply andb_true_iff in Hguard as [_ Hkey].
  destruct (extract_video_id (typed_video_url inp)) as [r|e'] eqn:Hid;
    [| cbn [snd]; intros H; walk_events H].
  destruct (if_truthy r) as [vid|] eqn:Hr; [| cbn [snd]; intros H; walk_events H].
  apply if_truthy_Some in Hr as [-> Hvid].
  destruct (media (typed_video_url inp)) as [[]|e'];
    [| cbn [snd]; intros H; walk_events H].
  destruct (fst (run (get_transcript transcript_api vid))) as [o|e'] eqn:Hget;
    [| cbn [snd]; intros H; walk_events H].
  destruct (if_truthy o) as [t|] eqn:Ho; [| cbn [snd]; intros H; walk_events H].
  apply if_truthy_Some in Ho as [-> Ht].
  cbn [snd]. intros H. apply in_app_or in H as [H|H]; [walk_events H |].
  destruct (ready_view_completion_inv _ _ _ _ _ _ H) as [-> Hprompt].
  split; [reflexivity |]. split; [exact Hkey |]. now exists vid, t.
Qed.

Lemma script_completion_request_inv_witness :
  model_configuration "dummy" = model_configuration "dummy" /\
  truthy "dummy" = true /\
  exists video_id transcript_text,
    extract_video_id "https://youtu.be/abc123?si=xyz" = Ok (Some video_id) /\
    fst (run (get_transcript (transcript_returns hello_world) video_id))
    = Ok (Some transcript_text) /\
    truthy transcript_text = true /\
    ((true = true /\ summary_prompt "Hello world" = summary_prompt transcript_text) \/
     (truthy "" = true /\
      summary_prompt "Hello world" = question_prompt transcript_text "")).
Proof.
  apply (script_completion_request_inv (transcript_returns hello_world)
           (completion_returns "A greeting.") media_http_only
           (typed "dummy" "https://youtu.be/abc123?si=xyz" true "")
           (model_configuration "dummy") (summary_prompt "Hello world")).
  vm_compute. do 12 right. left. reflexivity.
Defined.

(** X17.  The transcript service is asked only for what the URL
    parser returned: a transcript request of a run carries the
    non-empty identifier extracted from the typed URL, and is sent only
    when an API key is present. *)
Theorem script_transcript_request_inv
    (transcript_api : string -> result (list fragment))
    (groq : llm_config -> string -> result string)
    (media : string -> result unit) (inp : inputs) (video_id : string) :
  In (TranscriptRequest video_id) (snd (run (script transcript_api groq media inp))) ->
  truthy (typed_api_key inp) = true /\
  extract_video_id (typed_video_url inp) = Ok (Some video_id) /\
  truthy video_id = true.
Proof.
  rewrite script_run_tree. cbn zeta.
  destruct (truthy (typed_video_url inp) && truthy (typed_api_key inp)) eqn:Hguard.
  2:{ destruct (negb (truthy (typed_api_key inp))); cbn [snd]; intros H; walk_events H. }
  apply andb_true_iff in Hguard as [_ Hkey].
  destruct (extract_video_id (typed_video_url inp)) as [r|e'] eqn:Hid;
    [| cbn [snd]; intros H; walk_events H].
  destruct (if_truthy r) as [vid|] eqn:Hr; [| cbn [snd]; intros H; walk_events H].
  apply if_truthy_Some in Hr as [-> Hvid].
  destruct (media (typed_video_url inp)) as [[]|e'];
    [| cbn [snd]; intros H; walk_events H].
  assert (In (TranscriptRequest video_id)
            (page_header ++ fetching_events (typed_video_url inp) vid)%list ->
          video_id = vid) as Hfetch.
  { intros H. walk_events H. now injection H. }
  destruct (fst (run (get_transcript transcript_api vid))) as [o|e'].
  - destruct (if_truthy o) as [t|]; cbn [snd]; intros H;
      apply in_app_or in H as [H|H].
    + now rewrite (Hfetch H).
    + now apply ready_view_no_transcript_request in H.
    + now rewrite (Hfetch H).
    + walk_events H.
  - cbn [snd]. intros H. now rewrite (Hfetch H).
Qed.

Lemma script_transcript_request_inv_witness :
  truthy "dummy" = true /\
  extract_video_id "https://youtu.be/abc123?si=xyz" = Ok (Some "abc123") /\
  truthy "abc123" = true.
Proof.
  apply (script_transcript_request_inv (transcript_fails (ServiceError "NoTranscriptFound" ""))
           (completion_returns "A greeting.") media_http_only
           (typed "dummy" "https://youtu.be/abc123?si=xyz" true "Who speaks?") "abc123").
  vm_compute. do 8 right. left. reflexivity.
Defined.

(** X18.  With a usable identifier and a link the player accepts, the
    player is shown for the typed URL before the transcript is asked
    for, whatever the two services do afterwards: every such run starts
    with the header, the player, the spinner and the one transcript
    request. *)
Theorem script_player_before_fetch
    (transcript_api : string -> result (list fragment))
    (groq : llm_config -> string -> result string)
    (media : string -> result unit) (inp : inputs) (video_id : string) :
  truthy (typed_api_key inp) = true ->
  extract_video_id (typed_video_url inp) = Ok (Some video_id) ->
  truthy video_id = true ->
  media (typed_video_url inp) = Ok tt ->
  exists rest,
    snd (run (script transcript_api groq media inp))
    = (page_header ++ fetching_events (typed_video_url inp) video_id ++ rest)%list /\
    forall v, ~ In (TranscriptRequest v) rest.
Proof.
  intros Hkey Hid Hvid Hmedia. rewrite script_run_tree. cbn zeta.
  assert (truthy (typed_video_url inp) = true) as ->.
  { destruct (typed_video_url inp); [discriminate Hid | reflexivity]. }
  rewrite Hkey, Hid. cbn [andb]. unfold if_truthy at 1. rewrite Hvid, Hmedia.
  destruct (fst (run (get_transcript transcript_api video_id))) as [o|e].
  - destruct (if_truthy o) as [t|]; cbn [snd]; rewrite <- app_assoc.
    + eexists. split; [reflexivity |]. intros v. apply ready_view_no_transcript_request.
    + eexists. split; [reflexivity |]. intros v H. walk_events H.
  - exists []. cbn [snd]. rewrite app_nil_r. split; [reflexivity |]. intros v [].
Qed.

Lemma script_player_before_fetch_witness :
  exists rest,
    snd (run (script (transcript_fails (ServiceError "VideoUnavailable" ""))
                (completion_returns "A greeting.") media_http_only
                (typed "dummy" "https://youtu.be/abc123?si=xyz" true "Who speaks?")))
    = (page_header ++ fetching_events "https://youtu.be/abc123?si=xyz" "abc123" ++ rest)%list /\
    forall v, ~ In (TranscriptRequest v) rest.
Proof.
  apply (script_player_before_fetch (transcript_fails (ServiceError "VideoUnavailable" ""))
           (completion_returns "A greeting.") media_http_only
           (typed "dummy" "https://youtu.be/abc123?si=xyz" true "Who speaks?") "abc123");
    reflexivity.
Defined.

(** X19.  Whether the tabs are reached depends on the texts alone:
    after the player has accepted the link and the fetch has succeeded,
    the script reaches them unless the service returned no fragment, or
    a single fragment with an empty text (two fragments always give a
    transcript with a space in it). *)
Theorem script_ready_by_texts
    (transcript_api : string -> result (list fragment))
    (groq : llm_config -> string -> result string)
    (media : string -> result unit) (inp : inputs)
    (video_id : string) (frags : list fragment) (texts : list string) :
  truthy (typed_api_key inp) = true ->
  extract_video_id (typed_video_url inp) = Ok (Some video_id) ->
  truthy video_id = true ->
  media (typed_video_url inp) = Ok tt ->
  transcript_api video_id = Ok frags ->
  text_fields frags texts ->
  entered_ready (snd (run (script transcript_api groq media inp))) = negb (texts_blank texts).
Proof.
  intros Hkey Hid Hvid Hmedia Hapi Htexts.
  destruct (texts_blank texts) eqn:Hblank.
  - rewrite script_run_tree. cbn zeta.
    assert (truthy (typed_video_url inp) = true) as ->.
    { destruct (typed_video_url inp); [discriminate Hid | reflexivity]. }
    rewrite Hkey, Hid. cbn [andb]. unfold if_truthy at 1. rewrite Hvid, Hmedia.
    rewrite (get_transcript_run_ok _ _ frags texts Hapi Htexts). cbn [fst].
    unfold if_truthy. rewrite truthy_join, Hblank. reflexivity.
  - rewrite (script_run_ready _ _ _ _ video_id frags texts
               Hkey Hid Hvid Hmedia Hapi Htexts Hblank).
    cbn [snd].
    destruct (ready_view_entered groq inp (join " " texts) (typed_api_key inp)) as [rest ->].
    unfold entered_ready. rewrite !existsb_app.
    change (existsb is_tabs tabs_opened) with true.
    cbn [orb]. now rewrite !orb_true_r.
Qed.

Lemma script_ready_by_texts_witness :
  entered_ready
    (snd (run (script (transcript_returns [caption "" 0 1; caption "" 1 2])
                 (completion_returns "A greeting.") media_http_only
                 (typed "dummy" "https://youtu.be/abc123?si=xyz" false ""))))
  = negb (texts_blank [""; ""]).
Proof.
  apply (script_ready_by_texts (transcript_returns [caption "" 0 1; caption "" 1 2])
           (completion_returns "A greeting.") media_http_only
           (typed "dummy" "https://youtu.be/abc123?si=xyz" false "")
           "abc123" [caption "" 0 1; caption "" 1 2] [""; ""]);
    try reflexivity.
  repeat constructor.
Defined.

(** X20.  An error while the summary is generated ends the whole run:
    a question typed in the same run is not sent, and the transcript
    tab is not filled. *)
Theorem script_failed_summary_aborts
    (transcript_api : string -> result (list fragment))
    (groq : llm_config -> string -> result string)
    (media : string -> result unit) (inp : inputs)
    (video_id : string) (frags : list fragment) (texts : list string) (e : exn) :
  truthy (typed_api_key inp) = true ->
  extract_video_id (typed_video_url inp) = Ok (Some video_id) ->
  truthy video_id = true ->
  media (typed_video_url inp) = Ok tt ->
  transcript_api video_id = Ok frags ->
  text_fields frags texts ->
  texts_blank texts = false ->
  clicked_generate inp = true ->
  groq (model_configuration (typed_api_key inp)) (summary_prompt (single_spaced texts))
  = Raise e ->
  run (script transcript_api groq media inp)
  = (Raise e,
     (page_header ++ fetching_events (typed_video_url inp) video_id ++ tabs_opened ++
      [ Render (st_spinner "Analyzing video content...");
        CompletionRequest (model_configuration (typed_api_key inp))
          (summary_prompt (single_spaced texts)) ])%list).
Proof.
  rewrite <- join_single_spaced.
  intros Hkey Hid Hvid Hmedia Hapi Htexts Hblank Hclick Hfail.
  rewrite (script_run_ready _ _ _ _ video_id frags texts
             Hkey Hid Hvid Hmedia Hapi Htexts Hblank).
  rewrite ready_view_run. cbn zeta. now rewrite Hclick, Hfail.
Qed.

Lemma script_failed_summary_aborts_witness :
  run (script (transcript_returns hello_world)
         (completion_fails (ServiceError "RateLimitError" "429")) media_http_only
         (typed "dummy" "https://youtu.be/abc123?si=xyz" true "Who speaks?"))
  = (Raise (ServiceError "RateLimitError" "429"),
     (page_header ++ fetching_events "https://youtu.be/abc123?si=xyz" "abc123" ++ tabs_opened ++
      [ Render (st_spinner "Analyzing video content...");
        CompletionRequest (model_configuration "dummy") (summary_prompt "Hello world") ])%list).
Proof.
  apply (script_failed_summary_aborts (transcript_returns hello_world)
           (completion_fails (ServiceError "RateLimitError" "429")) media_http_only
           (typed "dummy" "https://youtu.be/abc123?si=xyz" true "Who speaks?")
           "abc123" hello_world ["Hello"; "world"] (ServiceError "RateLimitError" "429"));
    try reflexivity.
  repeat constructor.
Defined.

(** X21.  Reading the transcript costs no completion request: without
    a click and without a question the script, once the player has
    accepted the link, shows the tabs and the transcript, and the only
    request of the run is the one for the transcript. *)
Theorem script_quiet_ready
    (transcript_api : string -> result (list fragment))
    (groq : llm_config -> string -> result string)
    (media : string -> result unit) (inp : inputs)
    (video_id : string) (frags : list fragment) (texts : list string) :
  truthy (typed_api_key inp) = true ->
  extract_video_id (typed_video_url inp) = Ok (Some video_id) ->
  truthy video_id = true ->
  media (typed_video_url inp) = Ok tt ->
  transcript_api video_id = Ok frags ->
  text_fields frags texts ->
  texts_blank texts = false ->
  clicked_generate inp = false ->
  truthy (typed_question inp) = false ->
  run (script transcript_api groq media inp)
  = (Ok tt,
     (page_header ++ fetching_events (typed_video_url inp) video_id ++ tabs_opened ++
      question_asked ++ [transcript_shown (single_spaced texts)])%list) /\
  requests (snd (run (script transcript_api groq media inp))) = [TranscriptRequest video_id].
Proof.
  rewrite <- join_single_spaced.
  intros Hkey Hid Hvid Hmedia Hapi Htexts Hblank Hclick Hq.
  assert (run (script transcript_api groq media inp)
          = (Ok tt,
             (page_header ++ fetching_events (typed_video_url inp) video_id ++ tabs_opened ++
              question_asked ++ [transcript_shown (join " " texts)])%list)) as Hrun.
  { rewrite (script_run_ready _ _ _ _ video_id frags texts
               Hkey Hid Hvid Hmedia Hapi Htexts Hblank).
    rewrite ready_view_run. cbn zeta. now rewrite Hclick, Hq. }
  split; [exact Hrun |]. now rewrite Hrun.
Qed.

Lemma script_quiet_ready_witness :
  run (script (transcript_returns hello_world)
         (completion_fails (ServiceError "RateLimitError" "429")) media_http_only
         (typed "dummy" "https://youtu.be/abc123?si=xyz" false ""))
  = (Ok tt,
     (page_header ++ fetching_events "https://youtu.be/abc123?si=xyz" "abc123" ++ tabs_opened ++
      question_asked ++ [transcript_shown "Hello world"])%list) /\
  requests (snd (run (script (transcript_returns hello_world)
                        (completion_fails (ServiceError "RateLimitError" "429")) media_http_only
                        (typed "dummy" "https://youtu.be/abc123?si=xyz" false ""))))
  = [TranscriptRequest "abc123"].
Proof.
  apply (script_quiet_ready (transcript_returns hello_world)
           (completion_fails (ServiceError "RateLimitError" "429")) media_http_only
           (typed "dummy" "https://youtu.be/abc123?si=xyz" false "")
           "abc123" hello_world ["Hello"; "world"]);
    try reflexivity.
  repeat constructor.
Defined.

(** X22.  A click and a question in the same run are both served, the
    summary first: once the player has accepted the link, the run has
    three requests (transcript, summary, question), renders the summary
    and the answer as the service returned them, and ends with the
    transcript. *)
Theorem script_both_actions
    (transcript_api : string -> result (list fragment))
    (groq : llm_config -> string -> result string)
    (media : string -> result unit) (inp : inputs)
    (video_id : string) (frags : list fragment) (texts : list string)
    (summary answer : string) :
  truthy (typed_api_key inp) = true ->
  extract_video_id (typed_video_url inp) = Ok (Some video_id) ->
  truthy video_id = true ->
  media (typed_video_url inp) = Ok tt ->
  transcript_api video_id = Ok frags ->
  text_fields frags texts ->
  texts_blank texts = false ->
  clicked_generate inp = true ->
  truthy (typed_question inp) = true ->
  groq (model_configuration (typed_api_key inp)) (summary_prompt (single_spaced texts))
  = Ok summary ->
  groq (model_configuration (typed_api_key inp))
    (question_prompt (single_spaced texts) (typed_question inp))
  = Ok answer ->
  run (script transcript_api groq media inp)
  = (Ok tt,
     (page_header ++ fetching_events (typed_video_url inp) video_id ++ tabs_opened ++
      [ Render (st_spinner "Analyzing video content...");
        CompletionRequest (model_configuration (typed_api_key inp))
          (summary_prompt (single_spaced texts));
        Render (st_markdown summary) ] ++
      question_asked ++
      [ Render (st_spinner "Thinking...");
        CompletionRequest (model_configuration (typed_api_key inp))
          (question_prompt (single_spaced texts) (typed_question inp));
        Render (st_write answer);
        transcript_shown (single_spaced texts) ])%list).
Proof.
  rewrite <- join_single_spaced.
  intros Hkey Hid Hvid Hmedia Hapi Htexts Hblank Hclick Hq Hs Ha.
  rewrite (script_run_ready _ _ _ _ video_id frags texts
             Hkey Hid Hvid Hmedia Hapi Htexts Hblank).
  rewrite ready_view_run. cbn zeta. rewrite Hclick, Hq, Hs, Ha. cbn [fst snd].
  now rewrite <- !app_assoc.
Qed.

Lemma script_both_actions_witness :
  run (script (transcript_returns hello_world) (completion_returns "A greeting.")
         media_http_only
         (typed "dummy" "https://youtu.be/abc123?si=xyz" true "Who speaks?"))
  = (Ok tt,
     (page_header ++ fetching_events "https://youtu.be/abc123?si=xyz" "abc123" ++ tabs_opened ++
      [ Render (st_spinner "Analyzing video content...");
        CompletionRequest (model_configuration "dummy") (summary_prompt "Hello world");
        Render (st_markdown "A greeting.") ] ++
      question_asked ++
      [ Render (st_spinner "Thinking...");
        CompletionRequest (model_configuration "dummy")
          (question_prompt "Hello world" "Who speaks?");
        Render (st_write "A greeting.");
        transcript_shown "Hello world" ])%list).
Proof.
  apply (script_both_actions (transcript_returns hello_world) (completion_returns "A greeting.")
           media_http_only
           (typed "dummy" "https://youtu.be/abc123?si=xyz" true "Who speaks?")
           "abc123" hello_world ["Hello"; "world"] "A greeting." "A greeting.");
    try reflexivity.
  repeat constructor.
Defined.

(** X23.  A link that the player refuses ends the run at the player:
    with an API key and a usable identifier, the run ends with the
    player's error right after the header, and no request is sent to
    either service. *)
Theorem script_refused_link_aborts
    (transcript_api : string -> result (list fragment))
    (groq : llm_config -> string -> result string)
    (media : string -> result unit) (inp : inputs) (video_id : string) (e : exn) :
  truthy (typed_api_key inp) = true ->
  extract_video_id (typed_video_url inp) = Ok (Some video_id) ->
  truthy video_id = true ->
  media (typed_video_url inp) = Raise e ->
  run (script transcript_api groq media inp) = (Raise e, page_header) /\
  requests (snd (run (script transcript_api groq media inp))) = [].
Proof.
  intros Hkey Hid Hvid Hmedia.
  assert (run (script transcript_api groq media inp) = (Raise e, page_header)) as Hrun.
  { rewrite script_run_tree. cbn zeta.
    assert (truthy (typed_video_url inp) = true) as ->.
    { destruct (typed_video_url inp); [discriminate Hid | reflexivity]. }
    rewrite Hkey, Hid. cbn [andb]. unfold if_truthy at 1. now rewrite Hvid, Hmedia. }
  split; [exact Hrun |]. now rewrite Hrun.
Qed.

Lemma script_refused_link_aborts_witness :
  run (script (transcript_returns hello_world) (completion_returns "A greeting.")
         media_http_only
         (typed "dummy" "www.youtube.com/watch?v=abc123" true "Who speaks?"))
  = (Raise (ServiceError "MediaFileStorageError" "Error opening media file"), page_header) /\
  requests (snd (run (script (transcript_returns hello_world) (completion_returns "A greeting.")
                        media_http_only
                        (typed "dummy" "www.youtube.com/watch?v=abc123" true "Who speaks?"))))
  = [].
Proof.
  apply (script_refused_link_aborts (transcript_returns hello_world)
           (completion_returns "A greeting.") media_http_only
           (typed "dummy" "www.youtube.com/watch?v=abc123" true "Who speaks?")
           "abc123" (ServiceError "MediaFileStorageError" "Error opening media file"));
    reflexivity.
Defined.
